(** * RiseAble: accessibility settings

    A shallow embedding of the accessibility-settings subsystem:

    - [lib/validations/accessibility.ts]  the zod schema of the five flags;
    - [app/api/accessibility/route.ts]    the GET and PUT handlers over the
                                          Prisma store;
    - [hooks/use-apply-accessibility.ts]  the effect that maps the flags onto
                                          the document element;
    - [hooks/use-accessibility.ts]        the client hook (load, optimistic
                                          update, persist).

    JavaScript values, zod, Prisma, the DOM and fetch are libraries of the
    program; the part of their behaviour the program relies on is written out
    below, next to the code that uses it. *)

From stdpp Require Import gmap strings list fin_maps pretty.

#[local] Set Warnings "-register-all".
#[local] Open Scope string_scope.

(** ** JavaScript values *)

Module Js.

(** A value produced by [JSON.parse]. A number is carried by the text
    JavaScript prints for it ([String(n)]), which is all the program ever
    observes of a number; the text of zero is ["0"]. An object is a finite
    map from property names to values. *)
Inductive json : Type :=
| JNull
| JBool (b : bool)
| JNum (repr : string)
| JStr (s : string)
| JArr (items : list json)
| JObj (members : gmap string json).

(** The result of reading a property: [None] is [undefined]. *)
Definition jsval : Type := option json.

Definition undefined : jsval := None.

(** [!v] is [negb (truthy v)]. *)
Definition truthy (v : json) : bool :=
  match v with
  | JNull => false
  | JBool b => b
  | JNum repr => negb (String.eqb repr "0")
  | JStr s => negb (String.eqb s "")
  | JArr _ | JObj _ => true
  end.

(** [s || d] on a nullable string: [null] and the empty string are falsy. *)
Definition str_or (s : option string) (d : string) : string :=
  match s with
  | None => d
  | Some s => if String.eqb s "" then d else s
  end.

(** [!s] on a string. *)
Definition str_falsy (s : string) : bool := String.eqb s "".

(** The value interpolated by a template literal, [`${v}`]. *)
Fixpoint to_string (v : json) : string :=
  match v with
  | JNull => "null"
  | JBool true => "true"
  | JBool false => "false"
  | JNum repr => repr
  | JStr s => s
  | JArr items =>
      (fix join (l : list json) : string :=
         match l with
         | [] => ""
         | x :: rest =>
             let here := match x with JNull => "" | _ => to_string x end in
             match rest with
             | [] => here
             | _ :: _ => here +:+ "," +:+ join rest
             end
         end) items
  | JObj _ => "[object Object]"
  end.

(** A value thrown by JavaScript code, as a [catch] clause sees it:
    either an [Error] with its message, or anything else. *)
Inductive Thrown : Type :=
| ThrownError (message : string)
| ThrownOther.

(** [data.name]: reading a property of [null] throws a [TypeError] (the
    message is V8's); a primitive or an array has none of the names this
    program reads. *)
Definition get_prop (data : json) (name : string) : Thrown + jsval :=
  match data with
  | JNull =>
      inl (ThrownError
             ("Cannot read properties of null (reading '" +:+ name +:+ "')"))
  | JObj members => inr (members !! name)
  | _ => inr undefined
  end.

(** The value [JSON.parse] reads back from the text [JSON.stringify] wrote
    for a value: a number that is not finite ([JSON.parse] makes one of a
    literal such as [1e999]) is written [null], at any depth; everything
    else is read back as it was. *)
Definition non_finite (repr : string) : bool :=
  bool_decide (repr ∈ ["Infinity"; "-Infinity"; "NaN"]).

Fixpoint through_JSON (v : json) : json :=
  match v with
  | JNum repr => if non_finite repr then JNull else JNum repr
  | JArr items => JArr (through_JSON <$> items)
  | JObj members => JObj (through_JSON <$> members)
  | JNull | JBool _ | JStr _ => v
  end.

End Js.

(** ** Effects: state that survives an exception

    Both the handlers and the hook run statements one after another over a
    mutable world (the database, the React state) and may throw half way;
    what was written before the throw stays written. *)

Module Eff.

Definition M (St E A : Type) : Type := St -> St * (E + A).

Definition ret {St E A} (a : A) : M St E A := fun s => (s, inr a).

Definition bind {St E A B} (m : M St E A) (k : A -> M St E B) : M St E B :=
  fun s =>
    match m s with
    | (s', inl e) => (s', inl e)
    | (s', inr a) => k a s'
    end.

Definition throw {St E A} (e : E) : M St E A := fun s => (s, inl e).

Definition get {St E} : M St E St := fun s => (s, inr s).

Definition modify {St E} (f : St -> St) : M St E unit := fun s => (f s, inr tt).

(** The settled value of an awaited promise. *)
Definition await {St E A} (r : E + A) : M St E A := fun s => (s, r).

(** [try { m } catch (e) { h e }] *)
Definition try_catch {St E A} (m : M St E A) (h : E -> M St E A) : M St E A :=
  fun s =>
    match m s with
    | (s', inl e) => h e s'
    | (s', inr a) => (s', inr a)
    end.

(** [try { m } finally { f }] *)
Definition finally {St E A} (m : M St E A) (f : M St E unit) : M St E A :=
  fun s =>
    match m s with
    | (s', r) =>
        match f s' with
        | (s'', inl e) => (s'', inl e)
        | (s'', inr _) => (s'', r)
        end
    end.

(** A [try] whose [catch] clause only computes the value to return. *)
Definition try_return {St E A} (m : M St E A) (h : E -> A) : St -> A * St :=
  fun s =>
    match m s with
    | (s', inl e) => (h e, s')
    | (s', inr a) => (a, s')
    end.

(** The state left behind by a call whose promise nobody awaits. *)
Definition exec {St E A} (m : M St E A) (s : St) : St := fst (m s).

End Eff.

Declare Scope eff_scope.
Delimit Scope eff_scope with eff.
Notation "x <- m ;; k" := (Eff.bind m (fun x => k))
  (at level 100, m at next level, right associativity) : eff_scope.
Notation "m ;; k" := (Eff.bind m (fun _ => k))
  (at level 100, right associativity) : eff_scope.

(** ** lib/validations/accessibility.ts *)

Module Validation.
Import Js.

(** The five properties of [AccessibilitySettings], in schema order. The
    record is used at [bool] (a validated payload, a stored row) and at
    [jsval] (what the client read from a response body). *)
Record Flags (A : Type) : Type := mkFlags {
  voiceNavigation : A;
  screenReader : A;
  highContrast : A;
  largeText : A;
  keyboardNav : A
}.
Arguments mkFlags {A}.
Arguments voiceNavigation {A}.
Arguments screenReader {A}.
Arguments highContrast {A}.
Arguments largeText {A}.
Arguments keyboardNav {A}.

Definition AccessibilitySettings : Type := Flags bool.

(** [keyof AccessibilitySettings] *)
Inductive FlagName : Type :=
| VoiceNavigation | ScreenReader | HighContrast | LargeText | KeyboardNav.

#[global] Instance FlagName_eq_dec : EqDecision FlagName.
Proof. solve_decision. Defined.

Definition flag_names : list FlagName :=
  [VoiceNavigation; ScreenReader; HighContrast; LargeText; KeyboardNav].

Definition key (k : FlagName) : string :=
  match k with
  | VoiceNavigation => "voiceNavigation"
  | ScreenReader => "screenReader"
  | HighContrast => "highContrast"
  | LargeText => "largeText"
  | KeyboardNav => "keyboardNav"
  end.

(** [settings[k]] *)
Definition get_flag {A} (k : FlagName) (s : Flags A) : A :=
  match k with
  | VoiceNavigation => voiceNavigation s
  | ScreenReader => screenReader s
  | HighContrast => highContrast s
  | LargeText => largeText s
  | KeyboardNav => keyboardNav s
  end.

(** [{ ...settings, [k]: v }] *)
Definition set_flag {A} (k : FlagName) (v : A) (s : Flags A) : Flags A :=
  match k with
  | VoiceNavigation =>
      mkFlags v (screenReader s) (highContrast s) (largeText s) (keyboardNav s)
  | ScreenReader =>
      mkFlags (voiceNavigation s) v (highContrast s) (largeText s) (keyboardNav s)
  | HighContrast =>
      mkFlags (voiceNavigation s) (screenReader s) v (largeText s) (keyboardNav s)
  | LargeText =>
      mkFlags (voiceNavigation s) (screenReader s) (highContrast s) v (keyboardNav s)
  | KeyboardNav =>
      mkFlags (voiceNavigation s) (screenReader s) (highContrast s) (largeText s) v
  end.

Definition all_flags {A} (v : A) : Flags A := mkFlags v v v v v.

Definition map_flags {A B} (f : A -> B) (s : Flags A) : Flags B :=
  mkFlags (f (voiceNavigation s)) (f (screenReader s)) (f (highContrast s))
    (f (largeText s)) (f (keyboardNav s)).

(** *** zod *)

(** [ZodParsedType], as far as JSON reaches it. *)
Inductive ZodParsedType : Type :=
| z_undefined | z_null | z_boolean | z_number | z_string | z_array | z_object.

Definition type_name (t : ZodParsedType) : string :=
  match t with
  | z_undefined => "undefined"
  | z_null => "null"
  | z_boolean => "boolean"
  | z_number => "number"
  | z_string => "string"
  | z_array => "array"
  | z_object => "object"
  end.

Definition getParsedType (v : jsval) : ZodParsedType :=
  match v with
  | None => z_undefined
  | Some JNull => z_null
  | Some (JBool _) => z_boolean
  | Some (JNum _) => z_number
  | Some (JStr _) => z_string
  | Some (JArr _) => z_array
  | Some (JObj _) => z_object
  end.

(** One entry of [ZodError.errors]. *)
Record ZodIssue : Type := mkIssue {
  code : string;
  expected : ZodParsedType;
  received : ZodParsedType;
  path : list string;
  message : string
}.

(** The issue zod files when the input has the wrong type; an absent
    input is reported as "Required". *)
Definition invalid_type (want got : ZodParsedType) (at_path : list string)
  : ZodIssue :=
  {| code := "invalid_type";
     expected := want;
     received := got;
     path := at_path;
     message :=
       match got with
       | z_undefined => "Required"
       | _ => "Expected " +:+ type_name want +:+ ", received " +:+ type_name got
       end |}.

(** A schema parses the value found at a path into issues or a result. *)
Definition Schema (A : Type) : Type := list string -> jsval -> list ZodIssue + A.

(** [z.boolean()] *)
Definition z_bool : Schema bool :=
  fun at_path input =>
    match input with
    | Some (JBool b) => inr b
    | _ => inl [invalid_type z_boolean (getParsedType input) at_path]
    end.

(** [inner.default(d)]: an [undefined] input is replaced by [d] before
    the inner schema sees it. *)
Definition z_default {A} (inner : Schema A) (d : A) : Schema A :=
  fun at_path input =>
    match input with
    | None => inr d
    | Some _ => inner at_path input
    end.

Definition issues_of {A} (r : list ZodIssue + A) : list ZodIssue :=
  match r with
  | inl issues => issues
  | inr _ => []
  end.

(** [z.object({...})] over the five keys: a non-object is one issue at
    the root; otherwise every key of the shape is parsed, in order, the
    issues of all of them are collected, and keys outside the shape are
    dropped. *)
Definition z_object_flags {A} (shape : Flags (Schema A)) : Schema (Flags A) :=
  fun at_path input =>
    match input with
    | Some (JObj members) =>
        let field (k : FlagName) :=
          get_flag k shape (at_path ++ [key k])%list (members !! key k) in
        match field VoiceNavigation, field ScreenReader, field HighContrast,
              field LargeText, field KeyboardNav with
        | inr vn, inr sr, inr hc, inr lt, inr kn => inr (mkFlags vn sr hc lt kn)
        | rvn, rsr, rhc, rlt, rkn =>
            inl (issues_of rvn ++ issues_of rsr ++ issues_of rhc
                   ++ issues_of rlt ++ issues_of rkn)%list
        end
    | _ => inl [invalid_type z_object (getParsedType input) at_path]
    end.

Definition AccessibilitySettingsSchema : Schema AccessibilitySettings :=
  z_object_flags
    {| voiceNavigation := z_default z_bool false;
       screenReader := z_default z_bool false;
       highContrast := z_default z_bool false;
       largeText := z_default z_bool false;
       keyboardNav := z_default z_bool false |}.

(** [schema.parse(data)]: the result, or a thrown [ZodError]. *)
Definition parse {A} (schema : Schema A) (data : json) : list ZodIssue + A :=
  schema [] (Some data).

End Validation.


(** ** The Prisma store

    The two tables of the migration: [User], with primary key [id] and a
    unique index on [email]; [AccessibilitySettings], with a unique index on
    [userId] and a foreign key from [userId] to [User.id]. Each table is a
    map from the column its rows are looked up by. Timestamps are
    milliseconds; [@default(cuid())] draws the next unused identifier. *)

Module Store.
Import Js Validation.

Record User : Type := mkUser {
  email : string;
  name : option string;
  password : option string;
  user_createdAt : nat;
  user_updatedAt : nat
}.

Record SettingsRow : Type := mkRow {
  id : nat;
  userId : string;
  flags : AccessibilitySettings;
  createdAt : nat;
  updatedAt : nat
}.

Record Db : Type := mkDb {
  user : gmap string User;
  accessibilitySettings : gmap string SettingsRow;
  next_id : nat
}.

Definition empty_db : Db := {| user := ∅; accessibilitySettings := ∅; next_id := 0 |}.

(** What a handler can catch: all of them are [Error]s. *)
Inductive ServerError : Type :=
| ZodError (errors : list ZodIssue)
| SyntaxError
| UniqueConstraintFailed (model field : string)
| ForeignKeyConstraintFailed (model field : string).

Definition Prisma (A : Type) : Type := Eff.M Db ServerError A.

Definition email_taken (e : string) (us : gmap string User) : bool :=
  bool_decide (map_Exists (λ _ u, email u = e) us).

(** [prisma.user.findUnique({ where: { id } })] *)
Definition user_findUnique (uid : string) : Prisma (option User) :=
  fun db => (db, inr (user db !! uid)).

(** [prisma.user.create({ data: { id, email } })] *)
Definition user_create (now : nat) (uid mail : string) : Prisma User :=
  fun db =>
    match user db !! uid with
    | Some _ => (db, inl (UniqueConstraintFailed "User" "id"))
    | None =>
        if email_taken mail (user db)
        then (db, inl (UniqueConstraintFailed "User" "email"))
        else
          let u := {| email := mail; name := None; password := None;
                      user_createdAt := now; user_updatedAt := now |} in
          ({| user := <[uid := u]> (user db);
              accessibilitySettings := accessibilitySettings db;
              next_id := next_id db |}, inr u)
    end.

(** [prisma.accessibilitySettings.findUnique({ where: { userId } })] *)
Definition settings_findUnique (uid : string) : Prisma (option SettingsRow) :=
  fun db => (db, inr (accessibilitySettings db !! uid)).

(** [prisma.accessibilitySettings.create({ data: { userId, ...flags } })] *)
Definition settings_create (now : nat) (uid : string)
    (data : AccessibilitySettings) : Prisma SettingsRow :=
  fun db =>
    match user db !! uid with
    | None => (db, inl (ForeignKeyConstraintFailed "AccessibilitySettings" "userId"))
    | Some _ =>
        match accessibilitySettings db !! uid with
        | Some _ => (db, inl (UniqueConstraintFailed "AccessibilitySettings" "userId"))
        | None =>
            let row := {| id := next_id db; userId := uid; flags := data;
                          createdAt := now; updatedAt := now |} in
            ({| user := user db;
                accessibilitySettings := <[uid := row]> (accessibilitySettings db);
                next_id := S (next_id db) |}, inr row)
        end
    end.

(** [prisma.accessibilitySettings.upsert({ where: { userId }, update,
    create })]: an existing row gets the five columns of [update] and a
    fresh [updatedAt]; otherwise [create] is inserted. *)
Definition settings_upsert (now : nat) (uid : string)
    (update create : AccessibilitySettings) : Prisma SettingsRow :=
  fun db =>
    match accessibilitySettings db !! uid with
    | Some old =>
        let row := {| id := id old; userId := userId old; flags := update;
                      createdAt := createdAt old; updatedAt := now |} in
        ({| user := user db;
            accessibilitySettings := <[uid := row]> (accessibilitySettings db);
            next_id := next_id db |}, inr row)
    | None => settings_create now uid create db
    end.

End Store.

(** ** app/api/accessibility/route.ts *)

Module Route.
Import Js Validation Store.
#[local] Open Scope eff_scope.

(** What a request is to the handlers: [req.headers.get('x-user-id')] and
    the outcome of [req.json()] ([None] when the body is not JSON). *)
Record Request : Type := mkRequest {
  x_user_id : option string;
  json_body : option json
}.

(** [process.env.NODE_ENV === 'production'] and the clock of the store. *)
Record Env : Type := mkEnv {
  production : bool;
  now : nat
}.

(** The [error] property of an error body: a literal of the handler, or
    the [message] of the error it caught. *)
Inductive ErrorText : Type :=
| Text (s : string)
| MessageOf (e : ServerError).

Inductive Body : Type :=
| SettingsBody (row : SettingsRow)
| ErrorBody (error : ErrorText) (details : option (list ZodIssue)).

(** [NextResponse.json(body, { status })] *)
Record Response : Type := json_response {
  body : Body;
  status : nat
}.

(** Lines 26-32 and 92-96: make sure the [User] row the foreign key needs
    exists. *)
Definition ensure_user (env : Env) (userId : string) : Prisma unit :=
  existingUser <- user_findUnique userId ;;
  match existingUser with
  | None => (user_create (now env) userId (userId +:+ "@local") ;; Eff.ret tt)
  | Some _ => Eff.ret tt
  end.

(** The message of the two [catch] clauses for anything but a [ZodError]. *)
Definition internal_error (env : Env) (error : ServerError) : Response :=
  json_response
    (ErrorBody (if production env then Text "Internal server error"
                else MessageOf error) None)
    500.

Definition unauthorized : Response :=
  json_response (ErrorBody (Text "Unauthorized: No user ID provided") None) 401.

(** [GET], from the point where [userId] is known. *)
Definition GET_as (env : Env) (userId : string) : Db -> Response * Db :=
  Eff.try_return
    (if str_falsy userId then Eff.ret unauthorized
     else
       ensure_user env userId ;;
       found <- settings_findUnique userId ;;
       settings <- match found with
                   | None => settings_create (now env) userId (all_flags false)
                   | Some row => Eff.ret row
                   end ;;
       Eff.ret (json_response (SettingsBody settings) 200))
    (internal_error env).

Definition GET (env : Env) (req : Request) : Db -> Response * Db :=
  let userId := str_or (x_user_id req) "demo-user-1" in
  GET_as env userId.

(** [PUT], from the point where [userId] is known. *)
Definition PUT_as (env : Env) (userId : string) (payload : option json)
  : Db -> Response * Db :=
  Eff.try_return
    (if str_falsy userId then Eff.ret unauthorized
     else
       ensure_user env userId ;;
       body <- Eff.await (match payload with
                          | Some v => inr v
                          | None => inl SyntaxError
                          end) ;;
       validatedData <- Eff.await (match parse AccessibilitySettingsSchema body with
                                   | inr data => inr data
                                   | inl issues => inl (ZodError issues)
                                   end) ;;
       updatedSettings <-
         settings_upsert (now env) userId validatedData validatedData ;;
       Eff.ret (json_response (SettingsBody updatedSettings) 200))
    (fun error =>
       match error with
       | ZodError errors =>
           json_response (ErrorBody (Text "Validation error") (Some errors)) 400
       | _ => internal_error env error
       end).

Definition PUT (env : Env) (req : Request) : Db -> Response * Db :=
  let userId := str_or (x_user_id req) "demo-user-1" in
  PUT_as env userId (json_body req).

End Route.


(** ** The document element

    [classList] is the ordered token list of the [class] attribute: [add]
    appends a token that is not there yet, [remove] takes it out.
    [attributes] holds the other attributes by name. *)

Module Dom.

Record Element : Type := mkElement {
  classList : list string;
  attributes : gmap string string
}.

Definition classList_contains (token : string) (el : Element) : bool :=
  bool_decide (token ∈ classList el).

Definition classList_add (token : string) (el : Element) : Element :=
  if classList_contains token el then el
  else {| classList := (classList el ++ [token])%list; attributes := attributes el |}.

Definition classList_remove (token : string) (el : Element) : Element :=
  {| classList := filter (λ t, t ≠ token) (classList el);
     attributes := attributes el |}.

Definition setAttribute (name value : string) (el : Element) : Element :=
  {| classList := classList el; attributes := <[name := value]> (attributes el) |}.

Definition removeAttribute (name : string) (el : Element) : Element :=
  {| classList := classList el; attributes := delete name (attributes el) |}.

Definition hasAttribute (name : string) (el : Element) : bool :=
  bool_decide (is_Some (attributes el !! name)).

End Dom.

(** ** hooks/use-apply-accessibility.ts *)

Module Applier.
Import Validation Dom.

(** The body of the effect, run on [document.documentElement] each time
    [settings] changes. *)
Definition useApplyAccessibilitySettings (settings : AccessibilitySettings)
    (root : Element) : Element :=
  let root :=
    if highContrast settings then classList_add "high-contrast" root
    else classList_remove "high-contrast" root in
  let root :=
    if largeText settings then classList_add "large-text" root
    else classList_remove "large-text" root in
  let root :=
    if keyboardNav settings
    then setAttribute "data-keyboard-nav" "true" (classList_add "keyboard-nav" root)
    else classList_remove "keyboard-nav" (removeAttribute "data-keyboard-nav" root) in
  let root :=
    if screenReader settings then setAttribute "data-screen-reader" "true" root
    else removeAttribute "data-screen-reader" root in
  if voiceNavigation settings then setAttribute "data-voice-nav" "true" root
  else removeAttribute "data-voice-nav" root.

End Applier.

(** ** hooks/use-accessibility.ts *)

Module Client.
Import Js Validation.
#[local] Open Scope eff_scope.

(** A [Response] as the hook reads it: [json_result] is the outcome of
    [response.json()]. *)
Record HttpResponse : Type := mkHttpResponse {
  status : nat;
  statusText : string;
  json_result : Thrown + json
}.

(** [response.ok] *)
Definition ok (response : HttpResponse) : bool :=
  (200 <=? status response)%nat && (status response <=? 299)%nat.

(** The arguments of one [fetch] call; [body] is the value the receiver
    parses out of the text [JSON.stringify] made. *)
Record FetchCall : Type := mkFetchCall {
  url : string;
  method : string;
  header_x_user_id : string;
  body : option json
}.

(** The service and the network between: how each call settles. *)
Definition Network : Type := FetchCall -> Thrown + HttpResponse.

(** The three [useState] cells, and the calls issued so far, oldest
    first. *)
Record HookState : Type := mkHookState {
  settings : Flags jsval;
  isLoading : bool;
  error : option string;
  sent : list FetchCall
}.

Definition Hook (A : Type) : Type := Eff.M HookState Thrown A.

Definition DEFAULT_SETTINGS : Flags jsval := all_flags (Some (JBool false)).

(** The state of the first render. *)
Definition initial : HookState :=
  {| settings := DEFAULT_SETTINGS; isLoading := true; error := None; sent := [] |}.

Definition setSettings (v : Flags jsval) : Hook unit :=
  Eff.modify (fun s => {| settings := v; isLoading := isLoading s;
                          error := error s; sent := sent s |}).

Definition setIsLoading (v : bool) : Hook unit :=
  Eff.modify (fun s => {| settings := settings s; isLoading := v;
                          error := error s; sent := sent s |}).

Definition setError (v : option string) : Hook unit :=
  Eff.modify (fun s => {| settings := settings s; isLoading := isLoading s;
                          error := v; sent := sent s |}).

Definition fetch (net : Network) (call : FetchCall) : Hook HttpResponse :=
  fun s => ({| settings := settings s; isLoading := isLoading s;
               error := error s; sent := (sent s ++ [call])%list |}, net call).

(** [JSON.stringify(data)], as the receiver parses it: a property whose
    value is [undefined] is left out, the others are written as JSON
    writes them. *)
Definition stringify_prop (k : FlagName) (data : Flags jsval)
    (members : gmap string json) : gmap string json :=
  match get_flag k data with
  | Some v => <[key k := through_JSON v]> members
  | None => members
  end.

Definition JSON_stringify (data : Flags jsval) : json :=
  JObj (foldr (fun k => stringify_prop k data) ∅ flag_names).

(** Lines 41-47 and 109-115: [statusText], unless the body is JSON with a
    truthy [error] property. *)
Definition error_detail (response : HttpResponse) : string :=
  match json_result response with
  | inr err =>
      if truthy err then
        match get_prop err "error" with
        | inr (Some v) => if truthy v then to_string v else statusText response
        | _ => statusText response
        end
      else statusText response
  | inl _ => statusText response
  end.

Definition fetchSettings (net : Network) (userId : option string) : Hook unit :=
  Eff.finally
    (Eff.try_catch
       (setIsLoading true ;;
        response <- fetch net {| url := "/api/accessibility";
                                 method := "GET";
                                 header_x_user_id := str_or userId "demo-user-1";
                                 body := None |} ;;
        (if negb (ok response)
         then Eff.throw (ThrownError ("Failed to fetch settings: "
                                        +:+ pretty (status response) +:+ " "
                                        +:+ error_detail response))
         else Eff.ret tt) ;;
        data <- Eff.await (json_result response) ;;
        vn <- Eff.await (get_prop data "voiceNavigation") ;;
        sr <- Eff.await (get_prop data "screenReader") ;;
        hc <- Eff.await (get_prop data "highContrast") ;;
        lt <- Eff.await (get_prop data "largeText") ;;
        kn <- Eff.await (get_prop data "keyboardNav") ;;
        setSettings {| voiceNavigation := vn; screenReader := sr;
                       highContrast := hc; largeText := lt; keyboardNav := kn |} ;;
        setError None)
       (fun err =>
          setError (Some (match err with
                          | ThrownError message => message
                          | ThrownOther => "Unknown error occurred"
                          end)) ;;
          setSettings DEFAULT_SETTINGS))
    (setIsLoading false).

(** The mount effect: it calls [fetchSettings()] and drops the promise. *)
Definition load (net : Network) (userId : option string) : HookState -> HookState :=
  Eff.exec (fetchSettings net userId).

Definition persistSettings (net : Network) (data : Flags jsval)
    (userId : option string) : Hook unit :=
  Eff.try_catch
    (response <- fetch net {| url := "/api/accessibility";
                              method := "PUT";
                              header_x_user_id := str_or userId "demo-user-1";
                              body := Some (JSON_stringify data) |} ;;
     (if negb (ok response)
      then Eff.throw (ThrownError ("Failed to save settings: "
                                     +:+ pretty (status response) +:+ " "
                                     +:+ error_detail response))
      else Eff.ret tt) ;;
     setError None)
    (fun err =>
       setError (Some (match err with
                       | ThrownError message => message
                       | ThrownOther => "Failed to save settings"
                       end))).

(** [updateSetting(key, value)]. The callback is built by a render and
    closes over the [settings] that render read from the state cell, here
    [rendered]: it merges into those, whatever the cell holds when it is
    called. The dependency list [[settings, userId]] has every render
    that reads other settings build the callback anew. *)
Definition updateSetting (net : Network) (userId : option string)
    (rendered : Flags jsval) (k : FlagName) (value : bool) : Hook unit :=
  let newSettings := set_flag k (Some (JBool value)) rendered in
  setSettings newSettings ;;
  persistSettings net newSettings userId.

(** [{ ...settings, ...newSettings }] for a [Partial]: [None] where the
    partial has no such property. *)
Definition spread (base : Flags jsval) (partial : Flags (option jsval))
  : Flags jsval :=
  {| voiceNavigation := default (voiceNavigation base) (voiceNavigation partial);
     screenReader := default (screenReader base) (screenReader partial);
     highContrast := default (highContrast base) (highContrast partial);
     largeText := default (largeText base) (largeText partial);
     keyboardNav := default (keyboardNav base) (keyboardNav partial) |}.

(** [updateSettings(newSettings)], a callback over the render's
    [settings] like [updateSetting]. *)
Definition updateSettings (net : Network) (userId : option string)
    (rendered : Flags jsval) (newSettings : Flags (option jsval)) : Hook unit :=
  let merged := spread rendered newSettings in
  setSettings merged ;;
  persistSettings net merged userId.

End Client.


(** * Vocabulary of the statements *)

Import Js Validation Store Dom Applier.

(** ** The handlers *)

(** The identity a handler works with: [req.headers.get('x-user-id') ||
    'demo-user-1']. *)
Definition resolve (header : option string) : string :=
  str_or header "demo-user-1".

(** The [User] row of [userId] exists or can be inserted: no other user
    holds the address it would get. *)
Definition can_provision (userId : string) (db : Db) : Prop :=
  is_Some (user db !! userId) ∨
  email_taken (userId +:+ "@local") (user db) = false.

(** The store once the [User] row of [userId] is there. *)
Definition provisioned (env : Route.Env) (userId : string) (db : Db) : Db :=
  match user db !! userId with
  | Some _ => db
  | None =>
      {| user := <[userId := {| email := userId +:+ "@local"; name := None;
                                password := None;
                                user_createdAt := Route.now env;
                                user_updatedAt := Route.now env |}]> (user db);
         accessibilitySettings := accessibilitySettings db;
         next_id := next_id db |}
  end.

(** The row a write of [data] for [userId] leaves, and the store holding it. *)
Definition written_row (env : Route.Env) (userId : string)
    (data : AccessibilitySettings) (db : Db) : SettingsRow :=
  match accessibilitySettings db !! userId with
  | Some old => {| id := id old; userId := Store.userId old; flags := data;
                   createdAt := createdAt old; updatedAt := Route.now env |}
  | None => {| id := next_id db; userId := userId; flags := data;
               createdAt := Route.now env; updatedAt := Route.now env |}
  end.

Definition with_row (userId : string) (row : SettingsRow) (db : Db) : Db :=
  {| user := user db;
     accessibilitySettings := <[userId := row]> (accessibilitySettings db);
     next_id := match accessibilitySettings db !! userId with
                | Some _ => next_id db
                | None => S (next_id db)
                end |}.

(** What a payload says about one flag: the issue to report for a value
    that is there and is not a boolean, and the value to store otherwise. *)
Definition field_issue (k : FlagName) (v : jsval) : list ZodIssue :=
  match v with
  | None | Some (JBool _) => []
  | Some _ => [invalid_type z_boolean (getParsedType v) [key k]]
  end.

Definition field_value (v : jsval) : bool :=
  match v with
  | Some (JBool b) => b
  | _ => false
  end.

Definition expected_details (members : gmap string json) : list ZodIssue :=
  flag_names ≫= (λ k, field_issue k (members !! key k)).

Definition read_flags (members : gmap string json) : AccessibilitySettings :=
  {| voiceNavigation := field_value (members !! "voiceNavigation");
     screenReader := field_value (members !! "screenReader");
     highContrast := field_value (members !! "highContrast");
     largeText := field_value (members !! "largeText");
     keyboardNav := field_value (members !! "keyboardNav") |}.

(** The store as the handlers leave it: users carry the address the
    handlers give them, every settings row belongs to an existing user and
    is filed under that user, and row identifiers are issued once. *)
Record consistent (db : Db) : Prop := mkConsistent {
  emails_local : ∀ uid u, user db !! uid = Some u -> email u = uid +:+ "@local";
  settings_owner : ∀ uid row,
    accessibilitySettings db !! uid = Some row ->
    userId row = uid ∧ is_Some (user db !! uid);
  ids_issued : ∀ uid row,
    accessibilitySettings db !! uid = Some row -> (id row < next_id db)%nat;
  ids_distinct : ∀ uid1 uid2 row1 row2,
    accessibilitySettings db !! uid1 = Some row1 ->
    accessibilitySettings db !! uid2 = Some row2 ->
    id row1 = id row2 -> uid1 = uid2
}.

(** The stores the two handlers can produce from an empty database. *)
Inductive reachable : Db -> Prop :=
| reachable_empty : reachable empty_db
| reachable_GET env req db :
    reachable db -> reachable (snd (Route.GET env req db))
| reachable_PUT env req db :
    reachable db -> reachable (snd (Route.PUT env req db)).

(** The stores the handlers produce while the clock of the server does not
    go back: [written_until t db] when every request so far was served at a
    time up to [t], each no earlier than the one before. *)
Inductive written_until : nat -> Db -> Prop :=
| written_nothing t : written_until t empty_db
| written_GET t env req db :
    written_until t db -> (t ≤ Route.now env)%nat ->
    written_until (Route.now env) (snd (Route.GET env req db))
| written_PUT t env req db :
    written_until t db -> (t ≤ Route.now env)%nat ->
    written_until (Route.now env) (snd (Route.PUT env req db)).

(** ** The document element *)

(** The global marker of a flag, read back from the element: the class or
    attribute whose presence stands for the flag. *)
Definition marker (k : FlagName) (root : Element) : bool :=
  match k with
  | HighContrast => classList_contains "high-contrast" root
  | LargeText => classList_contains "large-text" root
  | KeyboardNav =>
      classList_contains "keyboard-nav" root && hasAttribute "data-keyboard-nav" root
  | ScreenReader => hasAttribute "data-screen-reader" root
  | VoiceNavigation => hasAttribute "data-voice-nav" root
  end.

(** The part of the effect that belongs to one flag. *)
Definition apply_flag (k : FlagName) (on : bool) (root : Element) : Element :=
  match k with
  | HighContrast =>
      if on then classList_add "high-contrast" root
      else classList_remove "high-contrast" root
  | LargeText =>
      if on then classList_add "large-text" root
      else classList_remove "large-text" root
  | KeyboardNav =>
      if on
      then setAttribute "data-keyboard-nav" "true" (classList_add "keyboard-nav" root)
      else classList_remove "keyboard-nav" (removeAttribute "data-keyboard-nav" root)
  | ScreenReader =>
      if on then setAttribute "data-screen-reader" "true" root
      else removeAttribute "data-screen-reader" root
  | VoiceNavigation =>
      if on then setAttribute "data-voice-nav" "true" root
      else removeAttribute "data-voice-nav" root
  end.

(** The element shows flag [k] as [on]: the marker of the flag is there
    when [on], and gone when not. *)
Definition in_sync (k : FlagName) (on : bool) (root : Element) : Prop :=
  match k with
  | HighContrast => classList_contains "high-contrast" root = on
  | LargeText => classList_contains "large-text" root = on
  | KeyboardNav =>
      classList_contains "keyboard-nav" root = on ∧
      attributes root !! "data-keyboard-nav" = (if on then Some "true" else None)
  | ScreenReader =>
      attributes root !! "data-screen-reader" = (if on then Some "true" else None)
  | VoiceNavigation =>
      attributes root !! "data-voice-nav" = (if on then Some "true" else None)
  end.

(** ** The hook *)

Definition GET_call (userId : option string) : Client.FetchCall :=
  {| Client.url := "/api/accessibility"; Client.method := "GET";
     Client.header_x_user_id := str_or userId "demo-user-1";
     Client.body := None |}.

Definition PUT_call (userId : option string) (data : Flags jsval)
  : Client.FetchCall :=
  {| Client.url := "/api/accessibility"; Client.method := "PUT";
     Client.header_x_user_id := str_or userId "demo-user-1";
     Client.body := Some (Client.JSON_stringify data) |}.

(** The read came back: a response with an ok status whose body is JSON
    other than [null]. *)
Definition read_succeeds (outcome : Thrown + Client.HttpResponse) (data : json)
  : Prop :=
  ∃ response, outcome = inr response ∧ Client.ok response = true ∧
              Client.json_result response = inr data ∧ data ≠ JNull.

(** The write came back with an ok status. *)
Definition write_succeeds (outcome : Thrown + Client.HttpResponse) : Prop :=
  ∃ response, outcome = inr response ∧ Client.ok response = true.

(** What [data.name] evaluates to when [data] is not [null]. *)
Definition own_prop (data : json) (name : string) : jsval :=
  match data with
  | JObj members => members !! name
  | _ => None
  end.

(** ** Sample inputs *)

Definition env_dev : Route.Env := {| Route.production := false; Route.now := 5 |}.

Definition env_later : Route.Env := {| Route.production := true; Route.now := 9 |}.

(** A request served while the clock of the server reads an earlier time
    than the rows of [db_u1] carry. *)
Definition env_back : Route.Env := {| Route.production := false; Route.now := 2 |}.

(** The body the hook sends for [P]. *)
Definition payload_of (P : AccessibilitySettings) : gmap string json :=
  <["voiceNavigation" := JBool (voiceNavigation P)]>
    (<["screenReader" := JBool (screenReader P)]>
       (<["highContrast" := JBool (highContrast P)]>
          (<["largeText" := JBool (largeText P)]>
             (<["keyboardNav" := JBool (keyboardNav P)]> ∅)))).

Definition contrast_on : AccessibilitySettings :=
  {| voiceNavigation := false; screenReader := false; highContrast := true;
     largeText := false; keyboardNav := false |}.

(** A store holding one user, whose settings have high contrast on. *)
Definition db_u1 : Db :=
  {| user := {[ "u1" := {| email := "u1@local"; name := None; password := None;
                           user_createdAt := 3; user_updatedAt := 3 |} ]};
     accessibilitySettings :=
       {[ "u1" := {| id := 0; userId := "u1"; flags := contrast_on;
                     createdAt := 3; updatedAt := 3 |} ]};
     next_id := 1 |}.

Definition no_identity : Route.Request :=
  {| Route.x_user_id := None; Route.json_body := Some (JObj ∅) |}.

Definition root_plain : Element :=
  {| classList := ["dark"]; attributes := {[ "lang" := "en" ]} |}.


(** A service that answers every call 200 with an empty object. *)
Definition net_200 : Client.Network :=
  fun _ => inr {| Client.status := 200;
                  Client.statusText := "OK";
                  Client.json_result := inr (JObj ∅) |}.

Definition net_500 : Client.Network :=
  fun _ => inr {| Client.status := 500;
                  Client.statusText := "Internal Server Error";
                  Client.json_result :=
                    inr (JObj {[ "error" := JStr "Internal server error" ]}) |}.


(** * More of the code *)

(** ** app/api/accessibility/put.ts

    An earlier copy of the PUT handler, kept beside [route.ts]: it does not
    provision the [User] row, and its last [catch] answers with the generic
    message whatever the environment. *)

Module PutFile.
Import Js Validation Store.
#[local] Open Scope eff_scope.

Definition PUT_as (env : Route.Env) (userId : string) (payload : option json)
  : Db -> Route.Response * Db :=
  Eff.try_return
    (if str_falsy userId then Eff.ret Route.unauthorized
     else
       body <- Eff.await (match payload with
                          | Some v => inr v
                          | None => inl SyntaxError
                          end) ;;
       validatedData <- Eff.await (match parse AccessibilitySettingsSchema body with
                                   | inr data => inr data
                                   | inl issues => inl (ZodError issues)
                                   end) ;;
       updatedSettings <-
         settings_upsert (Route.now env) userId validatedData validatedData ;;
       Eff.ret (Route.json_response (Route.SettingsBody updatedSettings) 200))
    (fun error =>
       match error with
       | ZodError errors =>
           Route.json_response
             (Route.ErrorBody (Route.Text "Validation error") (Some errors)) 400
       | _ =>
           Route.json_response
             (Route.ErrorBody (Route.Text "Internal server error") None) 500
       end).

Definition PUT (env : Route.Env) (req : Route.Request) : Db -> Route.Response * Db :=
  let userId := str_or (Route.x_user_id req) "demo-user-1" in
  PUT_as env userId (Route.json_body req).

End PutFile.

(** ** Between the hook and the handlers

    What a [fetch] call of the hook is to the handler that receives it, and
    what the handler's [NextResponse.json] is to the hook. The texts that
    libraries make of an identifier, a date, an error and a status code are
    taken as given. *)

Module Wire.
Import Js Validation Store.

Record Renderings : Type := mkRenderings {
  cuid : nat -> string;
  toISOString : nat -> string;
  message_of : ServerError -> string;
  reason_phrase : nat -> string;
  header_error : string -> string
}.

(** What [fetch] makes of a header value (Fetch standard, headers): tabs,
    line feeds, carriage returns and spaces are removed from both ends; a
    value that then still holds a NUL, a line feed or a carriage return, or
    that holds a character above U+00FF, is refused with a [TypeError] and
    nothing is sent. A string of the model is the UTF-8 text of the
    JavaScript string, in which a character above U+00FF shows as a byte
    of 196 or more. *)
Definition http_whitespace (c : Ascii.ascii) : bool :=
  bool_decide (Ascii.N_of_ascii c ∈ [9; 10; 13; 32]%N).

Fixpoint drop_whitespace (value : list Ascii.ascii) : list Ascii.ascii :=
  match value with
  | [] => []
  | c :: rest => if http_whitespace c then drop_whitespace rest else value
  end.

Definition normalize (value : string) : string :=
  String.string_of_list_ascii
    (reverse (drop_whitespace
                (reverse (drop_whitespace (String.list_ascii_of_string value))))).

Definition refused_byte (c : Ascii.ascii) : bool :=
  (bool_decide (Ascii.N_of_ascii c ∈ [0; 10; 13]%N)
   || (196 <=? Ascii.N_of_ascii c)%N)%bool.

Definition header_value (value : string) : option string :=
  if existsb refused_byte (String.list_ascii_of_string (normalize value))
  then None
  else Some (normalize value).

(** The request a handler sees for a call, if the call goes out. *)
Definition deliver (call : Client.FetchCall) : option Route.Request :=
  value ← header_value (Client.header_x_user_id call);
  Some {| Route.x_user_id := Some value; Route.json_body := Client.body call |}.

(** [JSON.stringify] of a settings row. *)
Definition row_json (w : Renderings) (row : SettingsRow) : json :=
  JObj (<["id" := JStr (cuid w (id row))]>
       (<["userId" := JStr (userId row)]>
       (<["voiceNavigation" := JBool (voiceNavigation (flags row))]>
       (<["screenReader" := JBool (screenReader (flags row))]>
       (<["highContrast" := JBool (highContrast (flags row))]>
       (<["largeText" := JBool (largeText (flags row))]>
       (<["keyboardNav" := JBool (keyboardNav (flags row))]>
       (<["createdAt" := JStr (toISOString w (createdAt row))]>
       (<["updatedAt" := JStr (toISOString w (updatedAt row))]> ∅))))))))).

Definition issue_json (issue : ZodIssue) : json :=
  JObj (<["code" := JStr (code issue)]>
       (<["expected" := JStr (type_name (expected issue))]>
       (<["received" := JStr (type_name (received issue))]>
       (<["path" := JArr (JStr <$> path issue)]>
       (<["message" := JStr (message issue)]> ∅))))).

Definition error_text (w : Renderings) (t : Route.ErrorText) : string :=
  match t with
  | Route.Text s => s
  | Route.MessageOf e => message_of w e
  end.

Definition body_json (w : Renderings) (b : Route.Body) : json :=
  match b with
  | Route.SettingsBody row => row_json w row
  | Route.ErrorBody error None =>
      JObj (<["error" := JStr (error_text w error)]> ∅)
  | Route.ErrorBody error (Some details) =>
      JObj (<["error" := JStr (error_text w error)]>
           (<["details" := JArr (issue_json <$> details)]> ∅))
  end.

(** The response as the hook receives it. *)
Definition to_http (w : Renderings) (r : Route.Response) : Client.HttpResponse :=
  {| Client.status := Route.status r;
     Client.statusText := reason_phrase w (Route.status r);
     Client.json_result := inr (body_json w (Route.body r)) |}.

(** The route file exports GET and PUT; Next.js answers any other method
    with 405 and no body. *)
Definition handle (env : Route.Env) (method : string) (req : Route.Request)
    (db : Db) : option (Route.Response * Db) :=
  if String.eqb method "GET"
  then Some (Route.GET env req db)
  else if String.eqb method "PUT"
  then Some (Route.PUT env req db)
  else None.

(** The service answering over a network that delivers every call that
    goes out. *)
Definition respond (w : Renderings) (env : Route.Env) (db : Db) : Client.Network :=
  fun call =>
    match deliver call with
    | None => inl (ThrownError (header_error w (Client.header_x_user_id call)))
    | Some req =>
        match handle env (Client.method call) req db with
        | Some (response, _) => inr (to_http w response)
        | None =>
            inr {| Client.status := 405;
                   Client.statusText := reason_phrase w 405;
                   Client.json_result :=
                     inl (ThrownError "Unexpected end of JSON input") |}
        end
    end.

(** The store the call leaves behind. *)
Definition store_after (env : Route.Env) (call : Client.FetchCall) (db : Db) : Db :=
  match deliver call with
  | None => db
  | Some req =>
      match handle env (Client.method call) req db with
      | Some (_, db') => db'
      | None => db
      end
  end.

End Wire.

(** ** More sample inputs *)

(** A store in which another user already holds the address a user ["u1"]
    would be given. *)
Definition db_clash : Db :=
  {| user := {[ "x" := {| email := "u1@local"; name := None; password := None;
                          user_createdAt := 1; user_updatedAt := 1 |} ]};
     accessibilitySettings := ∅;
     next_id := 0 |}.

Definition as_u1 (payload : option json) : Route.Request :=
  {| Route.x_user_id := Some "u1"; Route.json_body := payload |}.

(** A flag as the hook holds it. *)
Definition js_bool (b : bool) : jsval := Some (JBool b).

(** Renderings to run examples with. *)
Definition plain_wire : Wire.Renderings :=
  {| Wire.cuid := fun n => "c" +:+ pretty n;
     Wire.toISOString := fun t => pretty t;
     Wire.message_of := fun _ => "Unique constraint failed";
     Wire.reason_phrase := fun _ => "";
     Wire.header_error := fun _ => "Invalid header value" |}.

(** ** hooks/use-keyboard-detection.ts *)

Module KeyboardDetection.
Import Dom.

(** One run of the effect: the document element and the [autoEnabled]
    variable of its closure; [forceEnable] is fixed for the run. *)
Record Run : Type := mkRun {
  root : Element;
  autoEnabled : bool
}.

Definition enable (st : Run) : Run :=
  let root1 :=
    if negb (classList_contains "keyboard-nav" (root st))
    then classList_add "keyboard-nav" (root st)
    else root st in
  {| root := setAttribute "data-keyboard-nav" "true" root1; autoEnabled := true |}.

Definition disable (forceEnable : bool) (st : Run) : Run :=
  if negb forceEnable
  then {| root := removeAttribute "data-keyboard-nav"
                    (classList_remove "keyboard-nav" (root st));
          autoEnabled := false |}
  else st.

(** What the three listeners receive. *)
Inductive Event : Type :=
| KeyDown (key : string)
| MouseMove
| MouseDown.

Definition onKeyDown (key : string) (st : Run) : Run :=
  if String.eqb key "Tab" then enable st else st.

Definition onPointer (forceEnable : bool) (st : Run) : Run :=
  if autoEnabled st && negb forceEnable then disable forceEnable st else st.

Definition dispatch (forceEnable : bool) (st : Run) (e : Event) : Run :=
  match e with
  | KeyDown key => onKeyDown key st
  | MouseMove | MouseDown => onPointer forceEnable st
  end.

(** The effect body, up to the registration of the listeners. *)
Definition mount (forceEnable : bool) (el : Element) : Run :=
  let st := {| root := el; autoEnabled := false |} in
  if forceEnable then enable st else st.

(** The function the effect returns. *)
Definition cleanup (forceEnable : bool) (st : Run) : Run :=
  if negb forceEnable then disable forceEnable st else st.

(** The element after the effect ran, the events came in, in order, and
    the effect was cleaned up or not. *)
Definition after_events (forceEnable : bool) (el : Element) (events : list Event)
  : Run :=
  foldl (dispatch forceEnable) (mount forceEnable el) events.

Definition useKeyboardDetection (forceEnable : bool) (el : Element)
    (events : list Event) : Element :=
  root (cleanup forceEnable (after_events forceEnable el events)).

End KeyboardDetection.

(** ** hooks/use-voice-navigation.ts

    A string is its sequence of UTF-16 code units. Which units [\w] and
    [\s] accept and what [toLowerCase] makes of a string are taken as given;
    [trim] removes the units [\s] accepts from both ends. *)

Module Voice.

Section Matcher.
Context {char : Type} `{EqDecision char}.
Variables (is_word is_space : char -> bool).
Variable toLowerCase : list char -> list char.

(** [txt.startsWith(phrase)] *)
Fixpoint startsWith (txt phrase : list char) {struct phrase} : bool :=
  match phrase, txt with
  | [], _ => true
  | _ :: _, [] => false
  | p :: phrase', t :: txt' => bool_decide (t = p) && startsWith txt' phrase'
  end.

(** [txt.includes(phrase)] *)
Fixpoint includes (txt phrase : list char) : bool :=
  startsWith txt phrase ||
  match txt with
  | [] => false
  | _ :: txt' => includes txt' phrase
  end.

Fixpoint dropWhile (p : char -> bool) (txt : list char) : list char :=
  match txt with
  | [] => []
  | c :: rest => if p c then dropWhile p rest else txt
  end.

(** [txt.trim()] *)
Definition trim (txt : list char) : list char :=
  reverse (dropWhile is_space (reverse (dropWhile is_space txt))).

(** [transcript.replace(/[^\w\s]/g, '')] *)
Definition strip_punctuation (transcript : list char) : list char :=
  filter (λ c, Is_true (is_word c || is_space c)) transcript.

(** [e.results[e.results.length - 1][0].transcript]: reading through a
    missing result or alternative throws. *)
Definition last_transcript (results : list (list (list char)))
  : option (list char) :=
  last results ≫= head.

(** The phrase the elements are searched for. *)
Definition normalized (raw : list char) : list char :=
  strip_punctuation (toLowerCase (trim raw)).

(** The [onresult] listener: [interactive] holds the [textContent] of the
    elements [querySelectorAll] found, in document order; the result is the
    position of the element that is scrolled to and clicked, if any. *)
Definition onresult (results : list (list (list char)))
    (interactive : list (list char)) : option nat :=
  match last_transcript results with
  | None => None
  | Some raw =>
      let phrase := normalized raw in
      let found :=
        list_find (λ txt, Is_true (includes (toLowerCase txt) phrase)) interactive in
      let found :=
        match found, phrase with
        | None, _ :: _ =>
            list_find (λ txt, Is_true (startsWith (toLowerCase txt) phrase))
              interactive
        | _, _ => found
        end in
      fst <$> found
  end.

End Matcher.

End Voice.

(** ** Vocabulary of the further statements *)

(** The identity the handlers serve a hook that was given [userId]: what
    [fetch] makes of the header the hook sends, or 'demo-user-1' when that
    is empty; none when [fetch] refuses the header. *)
Definition served_as (userId : option string) : option string :=
  value ← Wire.header_value (str_or userId "demo-user-1");
  Some (resolve (Some value)).

(** A byte that [fetch] lets through wherever it stands in a header
    value. *)
Definition plain_byte (c : Ascii.ascii) : bool :=
  negb (Wire.http_whitespace c) && negb (Wire.refused_byte c).

(** The classes and attributes the applier and the keyboard detection
    write. *)
Definition managed_classes : list string :=
  ["high-contrast"; "large-text"; "keyboard-nav"].

Definition managed_attributes : list string :=
  ["data-keyboard-nav"; "data-screen-reader"; "data-voice-nav"].

(** A Tab press, or a move or press of the mouse. *)
Definition is_tab (e : KeyboardDetection.Event) : bool :=
  match e with
  | KeyboardDetection.KeyDown key => String.eqb key "Tab"
  | _ => false
  end.

Definition is_pointer (e : KeyboardDetection.Event) : bool :=
  match e with
  | KeyboardDetection.KeyDown _ => false
  | _ => true
  end.

(** Whether the outlines are showing after the events: the last Tab press
    or pointer event decides, and at the start they are not. *)
Fixpoint outlined (shown : bool) (events : list KeyboardDetection.Event) : bool :=
  match events with
  | [] => shown
  | e :: rest =>
      outlined (if is_tab e then true else if is_pointer e then false else shown) rest
  end.

(** Sample texts for the voice matcher: ASCII strings, with [\w], [\s] and
    [toLowerCase] as they are on ASCII. *)
Definition units (s : string) : list Ascii.ascii := String.list_ascii_of_string s.

(** Whether the code of [c] lies between two codes. *)
Definition ascii_between (lo hi : N) (c : Ascii.ascii) : bool :=
  ((lo <=? Ascii.N_of_ascii c)%N && (Ascii.N_of_ascii c <=? hi)%N)%bool.

(** [a-z], [A-Z], [0-9] and the underscore. *)
Definition ascii_word (c : Ascii.ascii) : bool :=
  (ascii_between 97 122 c || ascii_between 65 90 c
   || ascii_between 48 57 c || ascii_between 95 95 c)%bool.

(** The space, and the tab to the carriage return. *)
Definition ascii_space (c : Ascii.ascii) : bool :=
  (ascii_between 32 32 c || ascii_between 9 13 c)%bool.

Definition ascii_lower (txt : list Ascii.ascii) : list Ascii.ascii :=
  map (λ c, if ascii_between 65 90 c
            then Ascii.ascii_of_N (Ascii.N_of_ascii c + 32)
            else c) txt.

Definition heard (s : string) : list (list (list Ascii.ascii)) := [[units s]].

Definition page_controls : list (list Ascii.ascii) :=
  [units "Home"; units "View Jobs"; units "Jobs"].


(** * Properties *)

(** ** Strings and flags *)

Lemma str_falsy_false s : s ≠ "" -> str_falsy s = false.
Proof. intros H. unfold str_falsy. by apply String.eqb_neq. Qed.

Lemma resolve_nonempty header : resolve header ≠ "".
Proof.
  unfold resolve, str_or. destruct header as [s|]; [|discriminate].
  destruct (String.eqb_spec s ""); [discriminate|assumption].
Qed.

Lemma list_ascii_app s t :
  String.list_ascii_of_string (s +:+ t) =
    (String.list_ascii_of_string s ++ String.list_ascii_of_string t)%list.
Proof. induction s as [|c s IH]; simpl; [reflexivity|]. by rewrite IH. Qed.

Lemma append_cancel_r s1 s2 t : s1 +:+ t = s2 +:+ t -> s1 = s2.
Proof.
  intros H. apply (f_equal String.list_ascii_of_string) in H.
  rewrite !list_ascii_app in H. apply app_inv_tail in H.
  rewrite <- (String.string_of_list_ascii_of_string s1),
          <- (String.string_of_list_ascii_of_string s2).
  by rewrite H.
Qed.

Lemma flags_ext {A} (a b : Flags A) :
  (∀ k, get_flag k a = get_flag k b) -> a = b.
Proof.
  intros H. destruct a, b.
  pose proof (H VoiceNavigation). pose proof (H ScreenReader).
  pose proof (H HighContrast). pose proof (H LargeText).
  pose proof (H KeyboardNav). simpl in *. congruence.
Qed.

Lemma set_flag_same {A} k (v : A) s : get_flag k (set_flag k v s) = v.
Proof. by destruct k. Qed.

Lemma set_flag_other {A} k k' (v : A) s :
  k ≠ k' -> get_flag k' (set_flag k v s) = get_flag k' s.
Proof. by destruct k, k'. Qed.

Lemma set_flag_restore {A} k (v : A) (s : Flags A) :
  set_flag k (get_flag k s) (set_flag k v s) = s.
Proof. by destruct k, s. Qed.

(** ** The schema *)

Lemma field_parse k v :
  z_default z_bool false [key k] v =
    match field_issue k v with
    | [] => inr (field_value v)
    | issues => inl issues
    end.
Proof. destruct v as [[]|]; reflexivity. Qed.

Lemma field_issue_cases k v :
  field_issue k v = [] ∨
  field_issue k v = [invalid_type z_boolean (getParsedType v) [key k]].
Proof. destruct v as [[]|]; simpl; auto. Qed.

(** Parsing an object: the issues of the five keys in schema order, or the
    flags when there is none. *)
Lemma parse_object members :
  parse AccessibilitySettingsSchema (JObj members) =
    match expected_details members with
    | [] => inr (read_flags members)
    | issues => inl issues
    end.
Proof.
  unfold parse, AccessibilitySettingsSchema, z_object_flags, expected_details,
    read_flags, flag_names.
  cbn [get_flag voiceNavigation screenReader highContrast largeText keyboardNav
       app mbind list_bind].
  change (z_default z_bool false ["voiceNavigation"])
    with (z_default z_bool false [key VoiceNavigation]).
  change (z_default z_bool false ["screenReader"])
    with (z_default z_bool false [key ScreenReader]).
  change (z_default z_bool false ["highContrast"])
    with (z_default z_bool false [key HighContrast]).
  change (z_default z_bool false ["largeText"])
    with (z_default z_bool false [key LargeText]).
  change (z_default z_bool false ["keyboardNav"])
    with (z_default z_bool false [key KeyboardNav]).
  rewrite !field_parse.
  change (key VoiceNavigation) with "voiceNavigation".
  change (key ScreenReader) with "screenReader".
  change (key HighContrast) with "highContrast".
  change (key LargeText) with "largeText".
  change (key KeyboardNav) with "keyboardNav".
  destruct (field_issue_cases VoiceNavigation (members !! "voiceNavigation")) as [-> | ->];
  destruct (field_issue_cases ScreenReader (members !! "screenReader")) as [-> | ->];
  destruct (field_issue_cases HighContrast (members !! "highContrast")) as [-> | ->];
  destruct (field_issue_cases LargeText (members !! "largeText")) as [-> | ->];
  destruct (field_issue_cases KeyboardNav (members !! "keyboardNav")) as [-> | ->];
  reflexivity.
Qed.

Lemma expected_details_nil members :
  expected_details members = [] <->
  ∀ k, members !! key k = None ∨ ∃ b, members !! key k = Some (JBool b).
Proof.
  unfold expected_details, flag_names. cbn [mbind list_bind app].
  split.
  - intros H k.
    repeat (apply app_eq_nil in H; destruct H as [? H]).
    assert (Hk : field_issue k (members !! key k) = []) by (destruct k; assumption).
    destruct (members !! key k) as [[]|]; simpl in Hk; try discriminate; eauto.
  - intros H.
    assert (Hk : ∀ k, field_issue k (members !! key k) = []).
    { intros k. destruct (H k) as [-> | [b ->]]; reflexivity. }
    rewrite !Hk. reflexivity.
Qed.

Lemma expected_details_elem members k v :
  members !! key k = Some v -> getParsedType (Some v) ≠ z_boolean ->
  invalid_type z_boolean (getParsedType (Some v)) [key k] ∈ expected_details members.
Proof.
  intros Hk Hv. unfold expected_details. apply list_elem_of_bind.
  exists k. split.
  - rewrite Hk. destruct v; simpl in *; try congruence; apply list_elem_of_here.
  - destruct k; unfold flag_names; set_solver.
Qed.

Lemma expected_details_only members issue :
  issue ∈ expected_details members ->
  ∃ k v, members !! key k = Some v ∧ getParsedType (Some v) ≠ z_boolean ∧
         issue = invalid_type z_boolean (getParsedType (Some v)) [key k].
Proof.
  unfold expected_details. intros (k & Hin & _)%list_elem_of_bind.
  destruct (members !! key k) as [v|] eqn:Hk; [|by apply elem_of_nil in Hin].
  exists k, v. split; [exact Hk|].
  destruct v; simpl in Hin;
    try (by apply elem_of_nil in Hin);
    apply list_elem_of_singleton in Hin; subst; split; done.
Qed.

Lemma read_flags_get members k :
  get_flag k (read_flags members) = field_value (members !! key k).
Proof. destruct k; reflexivity. Qed.

(** ** The handlers, run *)

Lemma provisioned_user env userId db :
  is_Some (user (provisioned env userId db) !! userId).
Proof.
  unfold provisioned. destruct (user db !! userId) eqn:Hu; simpl.
  - rewrite Hu. eauto.
  - rewrite lookup_insert_eq. eauto.
Qed.

Lemma provisioned_settings env userId db :
  accessibilitySettings (provisioned env userId db) = accessibilitySettings db.
Proof. unfold provisioned. destruct (user db !! userId); reflexivity. Qed.

Lemma provisioned_next_id env userId db :
  next_id (provisioned env userId db) = next_id db.
Proof. unfold provisioned. destruct (user db !! userId); reflexivity. Qed.

Lemma written_row_provisioned env env' userId data db :
  written_row env userId data (provisioned env' userId db) =
  written_row env userId data db.
Proof.
  unfold written_row. by rewrite provisioned_settings, provisioned_next_id.
Qed.

Lemma can_provision_after env userId db :
  can_provision userId (provisioned env userId db).
Proof. left. apply provisioned_user. Qed.

Lemma can_provision_with_row userId uid row db :
  can_provision userId db -> can_provision userId (with_row uid row db).
Proof. intros H. exact H. Qed.

Lemma can_provision_dec userId db :
  can_provision userId db ∨ ¬ can_provision userId db.
Proof.
  unfold can_provision.
  destruct (user db !! userId) as [u|]; [left; left; eauto|].
  destruct (email_taken _ _); [right|left; right; reflexivity].
  intros [[u Hu]|He]; discriminate.
Qed.

Section Served.
Variables (env : Route.Env) (userId : string) (db : Db).
Hypothesis Hidentity : userId ≠ "".

Lemma GET_as_status :
  Route.status (fst (Route.GET_as env userId db)) = 200 ∨
  Route.status (fst (Route.GET_as env userId db)) = 500.
Proof.
  unfold Route.GET_as, Eff.try_return.
  rewrite (str_falsy_false _ Hidentity).
  match goal with
  | |- context [match ?m db with _ => _ end] =>
      destruct (m db) as [db' [e|r]] eqn:Hrun
  end.
  - right. reflexivity.
  - left. revert Hrun. unfold Eff.bind, Eff.ret.
    repeat match goal with
           | |- context [match ?x with _ => _ end] => destruct x eqn:?
           end; intros; simplify_eq; reflexivity.
Qed.

Lemma PUT_as_status payload :
  Route.status (fst (Route.PUT_as env userId payload db)) = 200 ∨
  Route.status (fst (Route.PUT_as env userId payload db)) = 400 ∨
  Route.status (fst (Route.PUT_as env userId payload db)) = 500.
Proof.
  unfold Route.PUT_as, Eff.try_return.
  rewrite (str_falsy_false _ Hidentity).
  match goal with
  | |- context [match ?m db with _ => _ end] =>
      destruct (m db) as [db' [e|r]] eqn:Hrun
  end.
  - destruct e; auto.
  - left. revert Hrun. unfold Eff.bind, Eff.ret, Eff.await.
    repeat match goal with
           | |- context [match ?x with _ => _ end] => destruct x eqn:?
           end; intros; simplify_eq; reflexivity.
Qed.

Lemma GET_as_fails :
  ¬ can_provision userId db ->
  Route.status (fst (Route.GET_as env userId db)) = 500.
Proof.
  intros Hn. unfold Route.GET_as, Eff.try_return.
  rewrite (str_falsy_false _ Hidentity).
  unfold Eff.bind at 1. unfold Route.ensure_user, Eff.bind, user_findUnique.
  destruct (user db !! userId) as [u|] eqn:Hu.
  { destruct Hn. left. eauto. }
  unfold user_create. rewrite Hu.
  destruct (email_taken _ _) eqn:He; [reflexivity|].
  destruct Hn. right. exact He.
Qed.

Hypothesis Hprovision : can_provision userId db.

Lemma ensure_user_run :
  Route.ensure_user env userId db = (provisioned env userId db, inr tt).
Proof.
  unfold Route.ensure_user, provisioned, Eff.bind, user_findUnique.
  destruct (user db !! userId) as [u|] eqn:Hu; [reflexivity|].
  unfold user_create. rewrite Hu.
  destruct Hprovision as [[u Hu']|He]; [congruence|].
  rewrite He. reflexivity.
Qed.

Lemma GET_as_run :
  Route.GET_as env userId db =
    match accessibilitySettings db !! userId with
    | Some row =>
        (Route.json_response (Route.SettingsBody row) 200, provisioned env userId db)
    | None =>
        let row := written_row env userId (all_flags false) db in
        (Route.json_response (Route.SettingsBody row) 200,
         with_row userId row (provisioned env userId db))
    end.
Proof.
  unfold Route.GET_as, Eff.try_return.
  rewrite (str_falsy_false _ Hidentity). unfold Eff.bind at 1.
  rewrite ensure_user_run.
  unfold Eff.bind, settings_findUnique, Eff.ret.
  rewrite provisioned_settings.
  destruct (accessibilitySettings db !! userId) as [row|] eqn:Hrow; [reflexivity|].
  unfold settings_create.
  destruct (provisioned_user env userId db) as [u Hu]. rewrite Hu.
  rewrite provisioned_settings, Hrow, provisioned_next_id.
  unfold written_row, with_row.
  rewrite Hrow, provisioned_settings, Hrow, provisioned_next_id.
  reflexivity.
Qed.

Lemma PUT_as_run members :
  Route.PUT_as env userId (Some (JObj members)) db =
    match expected_details members with
    | [] =>
        let row := written_row env userId (read_flags members) db in
        (Route.json_response (Route.SettingsBody row) 200,
         with_row userId row (provisioned env userId db))
    | issues =>
        (Route.json_response
           (Route.ErrorBody (Route.Text "Validation error") (Some issues)) 400,
         provisioned env userId db)
    end.
Proof.
  unfold Route.PUT_as, Eff.try_return.
  rewrite (str_falsy_false _ Hidentity). unfold Eff.bind at 1.
  rewrite ensure_user_run.
  unfold Eff.bind, Eff.await, Eff.ret. rewrite parse_object.
  destruct (expected_details members) as [|i issues]; [|reflexivity].
  unfold settings_upsert, settings_create, written_row, with_row.
  rewrite !provisioned_settings, !provisioned_next_id.
  destruct (accessibilitySettings db !! userId) as [old|] eqn:Hold; [reflexivity|].
  destruct (provisioned_user env userId db) as [u Hu]. rewrite Hu.
  reflexivity.
Qed.

(** A body that is not JSON, or not an object, is turned away after the
    user was provisioned. *)
Lemma PUT_as_rejected payload :
  (∀ members, payload ≠ Some (JObj members)) ->
  ∃ response,
    Route.PUT_as env userId payload db = (response, provisioned env userId db) ∧
    (Route.status response = 400 ∨ Route.status response = 500).
Proof.
  intros Hpay. unfold Route.PUT_as, Eff.try_return.
  rewrite (str_falsy_false _ Hidentity). unfold Eff.bind at 1.
  rewrite ensure_user_run.
  unfold Eff.bind, Eff.await.
  destruct payload as [[| | | | |members]|];
    try (by destruct (Hpay members)); simpl; eauto.
Qed.

End Served.

(** ** The store stays consistent *)

Lemma consistent_can_provision db userId :
  consistent db -> can_provision userId db.
Proof.
  intros Hc. unfold can_provision.
  destruct (user db !! userId) as [u|] eqn:Hu; [left; eauto|right].
  unfold email_taken. apply bool_decide_eq_false.
  intros (uid & u & Hlook & Hmail). simpl in Hmail.
  rewrite (emails_local db Hc uid u Hlook) in Hmail.
  apply append_cancel_r in Hmail. congruence.
Qed.

Lemma consistent_empty : consistent empty_db.
Proof. split; simpl; intros *; rewrite ?lookup_empty; discriminate. Qed.

Lemma consistent_provisioned env userId db :
  consistent db -> consistent (provisioned env userId db).
Proof.
  intros Hc. unfold provisioned.
  destruct (user db !! userId) as [u|] eqn:Hu; [exact Hc|].
  destruct Hc as [He Ho Hi Hd]. split; simpl.
  - intros uid u. rewrite lookup_insert. case_decide; [|apply He].
    intros [= <-]. by subst.
  - intros uid row Hrow. destruct (Ho uid row Hrow) as [? [u' Hu']].
    split; [done|]. rewrite lookup_insert_ne by congruence. eauto.
  - exact Hi.
  - exact Hd.
Qed.

Lemma consistent_with_row env userId data db :
  consistent db -> is_Some (user db !! userId) ->
  consistent (with_row userId (written_row env userId data db) db).
Proof.
  intros [He Ho Hi Hd] Hu. unfold with_row, written_row.
  destruct (accessibilitySettings db !! userId) as [old|] eqn:Hold.
  - split; simpl.
    + exact He.
    + intros uid row. rewrite lookup_insert. case_decide.
      * intros [= <-]. subst uid. simpl. destruct (Ho _ _ Hold). done.
      * apply Ho.
    + intros uid row. rewrite lookup_insert. case_decide.
      * intros [= <-]. simpl. eapply Hi, Hold.
      * apply Hi.
    + intros uid1 uid2 row1 row2. rewrite !lookup_insert.
      repeat case_decide; subst; try done.
      * intros [= <-] H2 Hid. simpl in Hid. eapply Hd; eauto.
      * intros H1 [= <-] Hid. simpl in Hid. eapply Hd; eauto.
      * apply Hd.
  - split; simpl.
    + exact He.
    + intros uid row. rewrite lookup_insert. case_decide.
      * intros [= <-]. subst uid. simpl. done.
      * apply Ho.
    + intros uid row. rewrite lookup_insert. case_decide.
      * intros [= <-]. simpl. lia.
      * intros Hrow. specialize (Hi _ _ Hrow). lia.
    + intros uid1 uid2 row1 row2. rewrite !lookup_insert.
      repeat case_decide; subst; try done.
      * intros [= <-] H2 Hid. simpl in Hid. specialize (Hi _ _ H2). lia.
      * intros H1 [= <-] Hid. simpl in Hid. specialize (Hi _ _ H1). lia.
      * apply Hd.
Qed.

Lemma GET_preserves_consistent env req db :
  consistent db -> consistent (snd (Route.GET env req db)).
Proof.
  intros Hc. unfold Route.GET. cbv zeta. fold (resolve (Route.x_user_id req)).
  rewrite (GET_as_run env _ db (resolve_nonempty _)
             (consistent_can_provision _ _ Hc)).
  destruct (accessibilitySettings db !! _); simpl.
  - by apply consistent_provisioned.
  - rewrite <- (written_row_provisioned env env).
    apply consistent_with_row; [by apply consistent_provisioned|].
    apply provisioned_user.
Qed.

Lemma PUT_preserves_consistent env req db :
  consistent db -> consistent (snd (Route.PUT env req db)).
Proof.
  intros Hc. unfold Route.PUT. cbv zeta. fold (resolve (Route.x_user_id req)).
  pose proof (consistent_can_provision _ (resolve (Route.x_user_id req)) Hc) as Hp.
  destruct (Route.json_body req) as [[| | | | |members]|];
    try (match goal with
         | |- context [Route.PUT_as env ?u ?payload db] =>
             let Hr := fresh in
             assert (Hr : ∀ members, payload ≠ Some (JObj members)) by discriminate;
             destruct (PUT_as_rejected env u db (resolve_nonempty _) Hp payload Hr)
               as (r & -> & _)
         end;
         by apply consistent_provisioned).
  rewrite (PUT_as_run env _ db (resolve_nonempty _) Hp members).
  destruct (expected_details members); simpl.
  - rewrite <- (written_row_provisioned env env).
    apply consistent_with_row; [by apply consistent_provisioned|].
    apply provisioned_user.
  - by apply consistent_provisioned.
Qed.

Lemma reachable_consistent db : reachable db -> consistent db.
Proof.
  induction 1 as [|env req db _ IH|env req db _ IH].
  - apply consistent_empty.
  - by apply GET_preserves_consistent.
  - by apply PUT_preserves_consistent.
Qed.

(** In every store the handlers can produce, any user can be provisioned:
    the assumption of the theorems below holds throughout. *)
Lemma reachable_can_provision db userId : reachable db -> can_provision userId db.
Proof. intros H. by apply consistent_can_provision, reachable_consistent. Qed.

(** ** PUT: validation *)

(** C1, as amended. For a PUT whose body is a JSON object (and whose user can
    be provisioned): a flag field holding a non-boolean value is rejected with
    status 400 and error "Validation error", and the details carry an issue
    naming exactly that field, with expected type boolean and the received
    type; the details name no other fields than those. A field that is
    missing is not a reason to reject: when every flag field is absent or a
    boolean the payload is accepted with status 200, an absent flag being read
    as false. In particular every payload with five booleans is accepted and
    answered with those five values, whichever of the 32 combinations. *)
Theorem PUT_validates_field_types (env : Route.Env) (req : Route.Request)
    (members : gmap string json) (db : Db) :
  Route.json_body req = Some (JObj members) ->
  can_provision (resolve (Route.x_user_id req)) db ->
  (∀ k v, members !! key k = Some v -> getParsedType (Some v) ≠ z_boolean ->
     ∃ details,
       fst (Route.PUT env req db) =
         Route.json_response
           (Route.ErrorBody (Route.Text "Validation error") (Some details)) 400 ∧
       {| code := "invalid_type"; expected := z_boolean;
          received := getParsedType (Some v); path := [key k];
          message := "Expected boolean, received "
                       +:+ type_name (getParsedType (Some v)) |} ∈ details ∧
       ∀ issue, issue ∈ details ->
         ∃ k' v', members !! key k' = Some v' ∧
                  getParsedType (Some v') ≠ z_boolean ∧
                  issue = invalid_type z_boolean (getParsedType (Some v')) [key k']) ∧
  ((∀ k, members !! key k = None ∨ ∃ b, members !! key k = Some (JBool b)) ->
     ∃ row,
       fst (Route.PUT env req db) =
         Route.json_response (Route.SettingsBody row) 200 ∧
       ∀ k, get_flag k (flags row) = field_value (members !! key k)) ∧
  (∀ P : AccessibilitySettings,
     (∀ k, members !! key k = Some (JBool (get_flag k P))) ->
     ∃ row,
       fst (Route.PUT env req db) =
         Route.json_response (Route.SettingsBody row) 200 ∧
       flags row = P).
Proof.
  intros Hbody Hp.
  assert (Hrun := PUT_as_run env _ db (resolve_nonempty _) Hp members).
  unfold Route.PUT. rewrite Hbody. fold (resolve (Route.x_user_id req)).
  rewrite Hrun. clear Hrun.
  split; [|split].
  - intros k v Hk Hv.
    pose proof (expected_details_elem _ _ _ Hk Hv) as Hin.
    pose proof (expected_details_only members) as Honly.
    destruct (expected_details members) as [|i issues] eqn:Hd.
    + by apply elem_of_nil in Hin.
    + eexists. split; [reflexivity|]. split; [|exact Honly].
      destruct v; simpl in *; try congruence; exact Hin.
  - intros Hall. apply expected_details_nil in Hall. rewrite Hall.
    eexists. split; [reflexivity|].
    intros k. unfold written_row.
    destruct (accessibilitySettings db !! _); simpl; apply read_flags_get.
  - intros P HP.
    assert (Hall : expected_details members = []).
    { apply expected_details_nil. intros k. right. eauto. }
    rewrite Hall. eexists. split; [reflexivity|].
    assert (Hflags : read_flags members = P).
    { apply flags_ext. intros k. by rewrite read_flags_get, HP. }
    unfold written_row.
    destruct (accessibilitySettings db !! _); simpl; exact Hflags.
Qed.

Lemma PUT_validates_field_types_witness :
  ∃ details,
    fst (Route.PUT env_dev
           {| Route.x_user_id := Some "u1";
              Route.json_body := Some (JObj {[ "largeText" := JStr "yes" ]}) |}
           empty_db)
    = Route.json_response
        (Route.ErrorBody (Route.Text "Validation error") (Some details)) 400 ∧
    {| code := "invalid_type"; expected := z_boolean; received := z_string;
       path := ["largeText"];
       message := "Expected boolean, received string" |} ∈ details.
Proof.
  destruct (PUT_validates_field_types env_dev
              {| Route.x_user_id := Some "u1";
                 Route.json_body := Some (JObj {[ "largeText" := JStr "yes" ]}) |}
              {[ "largeText" := JStr "yes" ]} empty_db)
    as (Hmistyped & _ & _).
  - reflexivity.
  - right. reflexivity.
  - destruct (Hmistyped LargeText (JStr "yes")) as (details & Hput & Hin & _);
      [reflexivity|discriminate|].
    exists details. split; [exact Hput|exact Hin].
Defined.

(** C1, as stated, fails: a payload without [keyboardNav] (and three more
    flags) is answered 200, not 400. *)
Lemma PUT_accepts_missing_field :
  (<["voiceNavigation" := JBool true]> (∅ : gmap string json)) !! "keyboardNav"
    = None ∧
  Route.status
    (fst (Route.PUT env_dev
            {| Route.x_user_id := Some "u1";
               Route.json_body :=
                 Some (JObj (<["voiceNavigation" := JBool true]> ∅)) |}
            empty_db)) = 200.
Proof. split; reflexivity. Qed.

(** C9. A PUT whose body is a JSON object in which every flag field is either
    omitted or a boolean (and whose user can be provisioned) is accepted with
    status 200; the row returned is the row stored for the user afterwards,
    and in it every omitted flag is false, whatever was stored before, and
    every given flag has the given value. *)
Theorem PUT_omitted_flags_stored_false (env : Route.Env) (req : Route.Request)
    (members : gmap string json) (db : Db) :
  Route.json_body req = Some (JObj members) ->
  can_provision (resolve (Route.x_user_id req)) db ->
  (∀ k, members !! key k = None ∨ ∃ b, members !! key k = Some (JBool b)) ->
  ∃ row db',
    Route.PUT env req db = (Route.json_response (Route.SettingsBody row) 200, db') ∧
    accessibilitySettings db' !! resolve (Route.x_user_id req) = Some row ∧
    (∀ k, members !! key k = None -> get_flag k (flags row) = false) ∧
    (∀ k b, members !! key k = Some (JBool b) -> get_flag k (flags row) = b).
Proof.
  intros Hbody Hp Hall.
  assert (Hrun := PUT_as_run env _ db (resolve_nonempty _) Hp members).
  apply expected_details_nil in Hall. rewrite Hall in Hrun.
  unfold Route.PUT. rewrite Hbody. fold (resolve (Route.x_user_id req)).
  rewrite Hrun. eexists _, _. split; [reflexivity|]. split; [|split].
  - simpl. apply lookup_insert_eq.
  - intros k Hk. unfold written_row.
    destruct (accessibilitySettings db !! _); simpl;
      by rewrite read_flags_get, Hk.
  - intros k b Hk. unfold written_row.
    destruct (accessibilitySettings db !! _); simpl;
      by rewrite read_flags_get, Hk.
Qed.

Lemma PUT_omitted_flags_stored_false_witness :
  highContrast contrast_on = true ∧
  ∃ row db',
    Route.PUT env_dev
      {| Route.x_user_id := Some "u1";
         Route.json_body := Some (JObj {[ "largeText" := JBool true ]}) |} db_u1
    = (Route.json_response (Route.SettingsBody row) 200, db') ∧
    accessibilitySettings db' !! "u1" = Some row ∧
    highContrast (flags row) = false ∧ largeText (flags row) = true.
Proof.
  split; [reflexivity|].
  destruct (PUT_omitted_flags_stored_false env_dev
              {| Route.x_user_id := Some "u1";
                 Route.json_body := Some (JObj {[ "largeText" := JBool true ]}) |}
              {[ "largeText" := JBool true ]} db_u1)
    as (row & db' & Hput & Hstored & Hmissing & Hgiven).
  - reflexivity.
  - left. vm_compute. eauto.
  - intros []; vm_compute; eauto.
  - exists row, db'. split; [exact Hput|]. split; [exact Hstored|]. split.
    + apply (Hmissing HighContrast). reflexivity.
    + apply (Hgiven LargeText true). reflexivity.
Defined.

(** ** PUT then GET, and GET on a fresh user *)

Lemma written_until_reachable t db : written_until t db -> reachable db.
Proof. induction 1; by constructor. Qed.

Lemma GET_updatedAt env req db uid row :
  can_provision (resolve (Route.x_user_id req)) db ->
  accessibilitySettings (snd (Route.GET env req db)) !! uid = Some row ->
  accessibilitySettings db !! uid = Some row ∨ updatedAt row = Route.now env.
Proof.
  intros Hp. unfold Route.GET. fold (resolve (Route.x_user_id req)).
  set (u := resolve (Route.x_user_id req)) in *.
  assert (Hu : u ≠ "") by apply resolve_nonempty.
  rewrite (GET_as_run env u db Hu Hp).
  destruct (accessibilitySettings db !! u) as [old|] eqn:Hold; cbn [snd].
  - rewrite provisioned_settings. by left.
  - cbn [with_row accessibilitySettings].
    destruct (decide (uid = u)) as [->|Hne].
    + rewrite lookup_insert_eq. intros [= <-]. right.
      unfold written_row. by rewrite Hold.
    + rewrite lookup_insert_ne by done. rewrite provisioned_settings. by left.
Qed.

Lemma PUT_updatedAt env req db uid row :
  can_provision (resolve (Route.x_user_id req)) db ->
  accessibilitySettings (snd (Route.PUT env req db)) !! uid = Some row ->
  accessibilitySettings db !! uid = Some row ∨ updatedAt row = Route.now env.
Proof.
  intros Hp. unfold Route.PUT. fold (resolve (Route.x_user_id req)).
  set (u := resolve (Route.x_user_id req)) in *.
  assert (Hu : u ≠ "") by apply resolve_nonempty.
  assert (Hno : ∀ payload, (∀ members, payload ≠ Some (JObj members)) ->
            accessibilitySettings (snd (Route.PUT_as env u payload db)) !! uid
              = Some row ->
            accessibilitySettings db !! uid = Some row ∨
            updatedAt row = Route.now env).
  { intros payload Hpay.
    destruct (PUT_as_rejected env u db Hu Hp payload Hpay) as (response & -> & _).
    cbn [snd]. rewrite provisioned_settings. by left. }
  destruct (Route.json_body req) as [[| | | | |members]|];
    try (apply Hno; intros ?; discriminate).
  rewrite (PUT_as_run env u db Hu Hp members).
  destruct (expected_details members) as [|issue issues]; cbn [snd].
  - cbn [with_row accessibilitySettings].
    destruct (decide (uid = u)) as [->|Hne].
    + rewrite lookup_insert_eq. intros [= <-]. right.
      unfold written_row. by destruct (accessibilitySettings db !! u).
    + rewrite lookup_insert_ne by done. rewrite provisioned_settings. by left.
  - rewrite provisioned_settings. by left.
Qed.

Lemma written_until_updatedAt t db :
  written_until t db ->
  ∀ uid row, accessibilitySettings db !! uid = Some row -> (updatedAt row ≤ t)%nat.
Proof.
  induction 1 as [t|t env req db Hw IH Ht|t env req db Hw IH Ht]; intros uid row Hrow.
  - unfold empty_db in Hrow. simpl in Hrow. by rewrite lookup_empty in Hrow.
  - apply GET_updatedAt in Hrow as [Hold| ->]; [|done|].
    + specialize (IH uid row Hold). lia.
    + by eapply reachable_can_provision, written_until_reachable.
  - apply PUT_updatedAt in Hrow as [Hold| ->]; [|done|].
    + specialize (IH uid row Hold). lia.
    + by eapply reachable_can_provision, written_until_reachable.
Qed.

(** C2, as amended. For every caller (any [x-user-id] header, or none) whose
    user can be provisioned and every payload carrying the five booleans of
    [P]: the PUT answers 200 with a row, the GET that follows for the same
    caller answers 200 with that same row, and its five flags are exactly
    [P]. The [updatedAt] of the row is the time of the write as the clock of
    the server gave it: it is at least the [updatedAt] stored before the
    write exactly when the clock is not behind that value, which is so
    whenever the requests so far were served by a clock that did not go
    back. *)
Theorem PUT_then_GET_round_trip (env1 env2 : Route.Env) (h : option string)
    (P : AccessibilitySettings) (members : gmap string json)
    (payload2 : option json) (db : Db) :
  (∀ k, members !! key k = Some (JBool (get_flag k P))) ->
  can_provision (resolve h) db ->
  ∃ row db1 db2,
    Route.PUT env1
      {| Route.x_user_id := h; Route.json_body := Some (JObj members) |} db
      = (Route.json_response (Route.SettingsBody row) 200, db1) ∧
    Route.GET env2 {| Route.x_user_id := h; Route.json_body := payload2 |} db1
      = (Route.json_response (Route.SettingsBody row) 200, db2) ∧
    flags row = P ∧
    updatedAt row = Route.now env1 ∧
    (∀ old, accessibilitySettings db !! resolve h = Some old ->
            ((updatedAt old ≤ updatedAt row)%nat
             <-> (updatedAt old ≤ Route.now env1)%nat)) ∧
    (∀ t old, written_until t db -> (t ≤ Route.now env1)%nat ->
              accessibilitySettings db !! resolve h = Some old ->
              (updatedAt old ≤ updatedAt row)%nat).
Proof.
  intros HP Hp.
  assert (Hall : expected_details members = []).
  { apply expected_details_nil. intros k. right. eauto. }
  assert (Hflags : read_flags members = P).
  { apply flags_ext. intros k. by rewrite read_flags_get, HP. }
  assert (Hput := PUT_as_run env1 _ db (resolve_nonempty h) Hp members).
  rewrite Hall, Hflags in Hput. cbv zeta in Hput.
  set (row := written_row env1 (resolve h) P db) in *.
  set (db1 := with_row (resolve h) row (provisioned env1 (resolve h) db)) in *.
  assert (Hp1 : can_provision (resolve h) db1).
  { apply can_provision_with_row, can_provision_after. }
  assert (Hget := GET_as_run env2 _ db1 (resolve_nonempty h) Hp1).
  assert (Hrow : accessibilitySettings db1 !! resolve h = Some row).
  { apply lookup_insert_eq. }
  rewrite Hrow in Hget.
  assert (Hat : updatedAt row = Route.now env1).
  { subst row. unfold written_row.
    destruct (accessibilitySettings db !! _); reflexivity. }
  exists row, db1, (provisioned env2 (resolve h) db1).
  split; [exact Hput|]. split; [exact Hget|]. split; [|split; [exact Hat|split]].
  - subst row. unfold written_row.
    destruct (accessibilitySettings db !! _); reflexivity.
  - intros old _. by rewrite Hat.
  - intros t old Hw Ht Hold. rewrite Hat.
    pose proof (written_until_updatedAt t db Hw _ _ Hold). lia.
Qed.

Lemma PUT_then_GET_round_trip_witness :
  ∃ row db1 db2,
    Route.PUT env_dev
      {| Route.x_user_id := Some "u1";
         Route.json_body := Some (JObj (payload_of (all_flags true))) |} db_u1
    = (Route.json_response (Route.SettingsBody row) 200, db1) ∧
    Route.GET env_later
      {| Route.x_user_id := Some "u1"; Route.json_body := None |} db1
    = (Route.json_response (Route.SettingsBody row) 200, db2) ∧
    flags row = all_flags true ∧
    updatedAt row = 5%nat.
Proof.
  destruct (PUT_then_GET_round_trip env_dev env_later (Some "u1") (all_flags true)
              (payload_of (all_flags true)) None db_u1)
    as (row & db1 & db2 & Hput & Hget & Hflags & Hat & _).
  - intros []; reflexivity.
  - left. vm_compute. eauto.
  - exists row, db1, db2. split; [exact Hput|]. split; [exact Hget|].
    split; [exact Hflags|exact Hat].
Defined.

(** C2, as stated, fails: a write served while the clock reads 2, for a
    user whose row carries [updatedAt] 3, succeeds, the read that follows
    returns the five flags written, and the [updatedAt] it returns is 2,
    earlier than the one stored before the write. *)
Lemma PUT_then_GET_updatedAt_goes_back :
  ∃ old row db1 db2,
    accessibilitySettings db_u1 !! "u1" = Some old ∧
    Route.PUT env_back
      {| Route.x_user_id := Some "u1";
         Route.json_body := Some (JObj (payload_of (all_flags true))) |} db_u1
    = (Route.json_response (Route.SettingsBody row) 200, db1) ∧
    Route.GET env_later
      {| Route.x_user_id := Some "u1"; Route.json_body := None |} db1
    = (Route.json_response (Route.SettingsBody row) 200, db2) ∧
    flags row = all_flags true ∧
    (updatedAt row < updatedAt old)%nat.
Proof.
  eexists _, _, _, _. split; [reflexivity|].
  split; [vm_compute; reflexivity|]. split; [vm_compute; reflexivity|].
  split; [reflexivity|]. vm_compute. lia.
Qed.

(** C3. For every caller with no settings row yet (and whose user can be
    provisioned), GET answers 200 with a row whose five flags are false; the
    row is stored for the caller, and a second GET answers 200 with the same
    row (same id, same timestamps) and leaves the store as it was. GET answers
    200 or 500 and nothing else, so never "not found"; and whenever it answers
    200, the row it returns is the row stored for the caller afterwards. *)
Theorem GET_provisions_defaults_once (env1 env2 : Route.Env) (h : option string)
    (payload1 payload2 : option json) (db : Db) :
  let req1 := {| Route.x_user_id := h; Route.json_body := payload1 |} in
  let req2 := {| Route.x_user_id := h; Route.json_body := payload2 |} in
  (can_provision (resolve h) db ->
   accessibilitySettings db !! resolve h = None ->
   ∃ row db1,
     Route.GET env1 req1 db
       = (Route.json_response (Route.SettingsBody row) 200, db1) ∧
     flags row = all_flags false ∧
     accessibilitySettings db1 !! resolve h = Some row ∧
     Route.GET env2 req2 db1
       = (Route.json_response (Route.SettingsBody row) 200, db1)) ∧
  (Route.status (fst (Route.GET env1 req1 db)) = 200 ∨
   Route.status (fst (Route.GET env1 req1 db)) = 500) ∧
  (Route.status (fst (Route.GET env1 req1 db)) = 200 ->
   ∃ row,
     fst (Route.GET env1 req1 db)
       = Route.json_response (Route.SettingsBody row) 200 ∧
     accessibilitySettings (snd (Route.GET env1 req1 db)) !! resolve h = Some row).
Proof.
  cbv zeta. split; [|split].
  - intros Hp Hnone.
    assert (Hget := GET_as_run env1 _ db (resolve_nonempty h) Hp).
    rewrite Hnone in Hget. cbv zeta in Hget.
    set (row := written_row env1 (resolve h) (all_flags false) db) in *.
    set (db1 := with_row (resolve h) row (provisioned env1 (resolve h) db)) in *.
    assert (Hrow : accessibilitySettings db1 !! resolve h = Some row).
    { apply lookup_insert_eq. }
    assert (Hp1 : can_provision (resolve h) db1).
    { apply can_provision_with_row, can_provision_after. }
    assert (Hget2 := GET_as_run env2 _ db1 (resolve_nonempty h) Hp1).
    rewrite Hrow in Hget2.
    exists row, db1. split; [exact Hget|]. split.
    { subst row. unfold written_row. by rewrite Hnone. }
    split; [exact Hrow|].
    unfold Route.GET. simpl. fold (resolve h). rewrite Hget2. f_equal.
    unfold provisioned.
    assert (Hu : is_Some (user db1 !! resolve h)) by apply provisioned_user.
    destruct Hu as [u ->]. reflexivity.
  - apply GET_as_status, resolve_nonempty.
  - intros H200. unfold Route.GET in *. simpl in *. fold (resolve h) in *.
    destruct (can_provision_dec (resolve h) db) as [Hp|Hn].
    + rewrite (GET_as_run env1 _ db (resolve_nonempty h) Hp).
      destruct (accessibilitySettings db !! resolve h) as [row|] eqn:Hrow.
      * exists row. split; [reflexivity|]. simpl. by rewrite provisioned_settings.
      * eexists. split; [reflexivity|]. simpl. apply lookup_insert_eq.
    + rewrite (GET_as_fails env1 _ db (resolve_nonempty h) Hn) in H200.
      discriminate.
Qed.

Lemma GET_provisions_defaults_once_witness :
  ∃ row db1,
    Route.GET env_dev
      {| Route.x_user_id := Some "u2"; Route.json_body := None |} db_u1
    = (Route.json_response (Route.SettingsBody row) 200, db1) ∧
    flags row = all_flags false ∧
    accessibilitySettings db1 !! "u2" = Some row ∧
    Route.GET env_later
      {| Route.x_user_id := Some "u2"; Route.json_body := None |} db1
    = (Route.json_response (Route.SettingsBody row) 200, db1).
Proof.
  apply (GET_provisions_defaults_once env_dev env_later (Some "u2") None None db_u1).
  - right. reflexivity.
  - reflexivity.
Defined.

(** ** Caller identity *)

(** C10. The userId a handler works with is never empty (the test
    [!userId] is false for every request), so no request is answered 401. A
    request whose [x-user-id] header is absent or empty is handled as the
    request that names 'demo-user-1', and the read or the write is carried
    out on that user's record. When that user can be provisioned, GET
    answers 200 with the row stored for 'demo-user-1': the row that was
    there, or else a new all-false row with the next id, filed under
    'demo-user-1'. PUT with five booleans answers 200 with the row it stored
    for 'demo-user-1', carrying those flags and the time of the write, the
    id and [createdAt] of the row that was there, or else the next id. Either
    way the [User] row of 'demo-user-1' exists afterwards. *)
Theorem missing_identity_served_as_demo_user (env : Route.Env)
    (req : Route.Request) (h : option string) (payload : option json) (db : Db) :
  let served := {| Route.x_user_id := h; Route.json_body := payload |} in
  let demo :=
    {| Route.x_user_id := Some "demo-user-1"; Route.json_body := payload |} in
  (str_falsy (str_or (Route.x_user_id req) "demo-user-1") = false ∧
   Route.status (fst (Route.GET env req db)) ≠ 401 ∧
   Route.status (fst (Route.PUT env req db)) ≠ 401) ∧
  (h = None ∨ h = Some "" ->
   str_or h "demo-user-1" = "demo-user-1" ∧
   Route.GET env served db = Route.GET env demo db ∧
   Route.PUT env served db = Route.PUT env demo db ∧
   (can_provision "demo-user-1" db ->
    (∃ row db',
       Route.GET env served db
         = (Route.json_response (Route.SettingsBody row) 200, db') ∧
       accessibilitySettings db' !! "demo-user-1" = Some row ∧
       is_Some (user db' !! "demo-user-1") ∧
       match accessibilitySettings db !! "demo-user-1" with
       | Some stored => row = stored
       | None =>
           row = {| id := next_id db; userId := "demo-user-1";
                    flags := all_flags false;
                    createdAt := Route.now env; updatedAt := Route.now env |}
       end) ∧
    (∀ members P,
       payload = Some (JObj members) ->
       (∀ k, members !! key k = Some (JBool (get_flag k P))) ->
       ∃ row db',
         Route.PUT env served db
           = (Route.json_response (Route.SettingsBody row) 200, db') ∧
         accessibilitySettings db' !! "demo-user-1" = Some row ∧
         is_Some (user db' !! "demo-user-1") ∧
         flags row = P ∧ updatedAt row = Route.now env ∧
         match accessibilitySettings db !! "demo-user-1" with
         | Some stored =>
             id row = id stored ∧ userId row = userId stored ∧
             createdAt row = createdAt stored
         | None =>
             id row = next_id db ∧ userId row = "demo-user-1" ∧
             createdAt row = Route.now env
         end))).
Proof.
  cbv zeta. split.
  { split; [apply str_falsy_false, resolve_nonempty|]. split.
    - destruct (GET_as_status env _ db (resolve_nonempty (Route.x_user_id req)))
        as [H|H]; unfold Route.GET; fold (resolve (Route.x_user_id req));
        rewrite H; discriminate.
    - destruct (PUT_as_status env _ db (resolve_nonempty (Route.x_user_id req))
                  (Route.json_body req)) as [H|[H|H]];
        unfold Route.PUT; fold (resolve (Route.x_user_id req));
        rewrite H; discriminate. }
  intros Hh.
  assert (Hid : str_or h "demo-user-1" = "demo-user-1").
  { by destruct Hh as [-> | ->]. }
  assert (Hdemo : "demo-user-1" ≠ "") by discriminate.
  split; [exact Hid|].
  split; [unfold Route.GET; cbn [Route.x_user_id]; by rewrite Hid|].
  split; [unfold Route.PUT; cbn [Route.x_user_id Route.json_body]; by rewrite Hid|].
  intros Hp. split.
  - unfold Route.GET. cbn [Route.x_user_id]. rewrite Hid.
    rewrite (GET_as_run env "demo-user-1" db Hdemo Hp).
    destruct (accessibilitySettings db !! "demo-user-1") as [stored|] eqn:Hstored.
    + exists stored, (provisioned env "demo-user-1" db).
      split; [reflexivity|]. split; [by rewrite provisioned_settings|].
      split; [apply provisioned_user|reflexivity].
    + cbv zeta. eexists _, _. split; [reflexivity|].
      split; [apply lookup_insert_eq|]. split; [apply provisioned_user|].
      unfold written_row. by rewrite Hstored.
  - intros members P -> HP.
    assert (Hall : expected_details members = []).
    { apply expected_details_nil. intros k. right. eauto. }
    assert (Hflags : read_flags members = P).
    { apply flags_ext. intros k. by rewrite read_flags_get, HP. }
    unfold Route.PUT. cbn [Route.x_user_id Route.json_body]. rewrite Hid.
    rewrite (PUT_as_run env "demo-user-1" db Hdemo Hp members), Hall, Hflags.
    cbv zeta. eexists _, _. split; [reflexivity|].
    split; [apply lookup_insert_eq|]. split; [apply provisioned_user|].
    unfold written_row.
    by destruct (accessibilitySettings db !! "demo-user-1").
Qed.

Lemma missing_identity_served_as_demo_user_witness :
  ∃ row db',
    Route.GET env_dev no_identity empty_db
      = (Route.json_response (Route.SettingsBody row) 200, db') ∧
    accessibilitySettings db' !! "demo-user-1" = Some row ∧
    is_Some (user db' !! "demo-user-1") ∧
    row = {| id := 0; userId := "demo-user-1"; flags := all_flags false;
             createdAt := 5; updatedAt := 5 |}.
Proof.
  destruct (missing_identity_served_as_demo_user env_dev no_identity None
              (Some (JObj ∅)) empty_db) as (_ & Hserved).
  destruct (Hserved (or_introl eq_refl)) as (_ & _ & _ & Hrun).
  destruct Hrun as ((row & db' & Hget & Hrow & Huser & Hnew) & _).
  - right. reflexivity.
  - exists row, db'. split; [exact Hget|]. split; [exact Hrow|].
    split; [exact Huser|exact Hnew].
Defined.

(** C4, as amended. With an empty userId both handlers answer 401
    Unauthorized and leave the store untouched, and with any other userId
    neither answers 401. A request that conveys no identity does not get
    there: each handler runs with the userId resolved from the header, which
    is never empty and is 'demo-user-1' when the header is absent or empty. *)
Theorem unauthorized_only_for_empty_userId (env : Route.Env) (userId : string)
    (req : Route.Request) (payload : option json) (db : Db) :
  (Route.GET_as env "" db = (Route.unauthorized, db) ∧
   Route.PUT_as env "" payload db = (Route.unauthorized, db) ∧
   Route.status Route.unauthorized = 401) ∧
  (str_falsy userId = false ->
   Route.status (fst (Route.GET_as env userId db)) ≠ 401 ∧
   Route.status (fst (Route.PUT_as env userId payload db)) ≠ 401) ∧
  (Route.GET env req db = Route.GET_as env (resolve (Route.x_user_id req)) db ∧
   Route.PUT env req db =
     Route.PUT_as env (resolve (Route.x_user_id req)) (Route.json_body req) db ∧
   resolve (Route.x_user_id req) ≠ "" ∧
   resolve None = "demo-user-1" ∧ resolve (Some "") = "demo-user-1").
Proof.
  split; [|split].
  - repeat split.
  - intros Hne. apply String.eqb_neq in Hne. split.
    + destruct (GET_as_status env userId db Hne) as [-> | ->]; discriminate.
    + destruct (PUT_as_status env userId db Hne payload) as [-> | [-> | ->]];
        discriminate.
  - repeat split. apply resolve_nonempty.
Qed.

Lemma unauthorized_only_for_empty_userId_witness :
  Route.status (fst (Route.GET_as env_dev "u1" empty_db)) ≠ 401 ∧
  Route.status (fst (Route.PUT_as env_dev "u1" None empty_db)) ≠ 401.
Proof.
  apply (unauthorized_only_for_empty_userId env_dev "u1" no_identity None empty_db).
  reflexivity.
Defined.

(** C4, as stated, fails: a GET and a PUT without identity, on the empty
    store, are answered 200, and each leaves a settings row for 'demo-user-1'
    where there was none. *)
Lemma no_identity_is_not_rejected :
  Route.x_user_id no_identity = None ∧
  accessibilitySettings empty_db !! "demo-user-1" = None ∧
  (Route.status (fst (Route.GET env_dev no_identity empty_db)) = 200 ∧
   is_Some (accessibilitySettings (snd (Route.GET env_dev no_identity empty_db))
              !! "demo-user-1")) ∧
  (Route.status (fst (Route.PUT env_dev no_identity empty_db)) = 200 ∧
   is_Some (accessibilitySettings (snd (Route.PUT env_dev no_identity empty_db))
              !! "demo-user-1")).
Proof. repeat split; try reflexivity; vm_compute; eauto. Qed.

(** ** The document element *)

Section TokenList.
Implicit Types (t u : string) (el : Element).

Lemma filter_absent t (l : list string) :
  t ∉ l -> filter (λ x, x ≠ t) l = l.
Proof.
  induction l as [|x l IH]; [reflexivity|].
  intros Hn. apply not_elem_of_cons in Hn as [Hx Hl].
  rewrite filter_cons_True by congruence. by rewrite IH.
Qed.

Lemma contains_add_same t el : classList_contains t (classList_add t el) = true.
Proof.
  unfold classList_add. destruct (classList_contains t el) eqn:Hc; [exact Hc|].
  unfold classList_contains. simpl. apply bool_decide_eq_true.
  apply elem_of_app. right. apply list_elem_of_here.
Qed.

Lemma contains_add_other t u el :
  t ≠ u -> classList_contains u (classList_add t el) = classList_contains u el.
Proof.
  intros Hne. unfold classList_add.
  destruct (classList_contains t el); [reflexivity|].
  unfold classList_contains. simpl. apply bool_decide_ext.
  rewrite elem_of_app, list_elem_of_singleton. intuition congruence.
Qed.

Lemma contains_remove_same t el :
  classList_contains t (classList_remove t el) = false.
Proof.
  unfold classList_contains, classList_remove. simpl.
  apply bool_decide_eq_false. rewrite list_elem_of_filter. intuition congruence.
Qed.

Lemma contains_remove_other t u el :
  t ≠ u -> classList_contains u (classList_remove t el) = classList_contains u el.
Proof.
  intros Hne. unfold classList_contains, classList_remove. simpl.
  apply bool_decide_ext. rewrite list_elem_of_filter. intuition congruence.
Qed.

Lemma add_present t el : classList_contains t el = true -> classList_add t el = el.
Proof. intros H. unfold classList_add. by rewrite H. Qed.

Lemma remove_absent t el :
  classList_contains t el = false -> classList_remove t el = el.
Proof.
  intros H. apply bool_decide_eq_false in H.
  destruct el as [cl attrs]. unfold classList_remove. simpl in *.
  by rewrite filter_absent.
Qed.

Lemma remove_add t el :
  classList_contains t el = false -> classList_remove t (classList_add t el) = el.
Proof.
  intros H. unfold classList_add. rewrite H.
  apply bool_decide_eq_false in H.
  destruct el as [cl attrs]. unfold classList_remove. simpl in *.
  rewrite filter_app, filter_absent by assumption.
  rewrite filter_cons_False by (intros Hx; by apply Hx). by rewrite filter_nil, app_nil_r.
Qed.

Lemma attributes_add t el : attributes (classList_add t el) = attributes el.
Proof. unfold classList_add. by destruct (classList_contains t el). Qed.

End TokenList.

Lemma apply_steps (settings : AccessibilitySettings) (root : Element) :
  useApplyAccessibilitySettings settings root =
    apply_flag VoiceNavigation (voiceNavigation settings)
      (apply_flag ScreenReader (screenReader settings)
         (apply_flag KeyboardNav (keyboardNav settings)
            (apply_flag LargeText (largeText settings)
               (apply_flag HighContrast (highContrast settings) root)))).
Proof. reflexivity. Qed.

Lemma element_eq (a b : Element) :
  classList a = classList b -> attributes a = attributes b -> a = b.
Proof. destruct a, b. simpl. by intros -> ->. Qed.

Lemma setAttribute_present name value root :
  attributes root !! name = Some value -> setAttribute name value root = root.
Proof. intros H. apply element_eq; [reflexivity|]. by apply insert_id. Qed.

Lemma removeAttribute_absent name root :
  attributes root !! name = None -> removeAttribute name root = root.
Proof. intros H. apply element_eq; [reflexivity|]. by apply delete_id. Qed.

Lemma apply_flag_in_sync k on root :
  in_sync k on root -> apply_flag k on root = root.
Proof.
  destruct k, on; simpl; intros H;
    try (by apply setAttribute_present);
    try (by apply removeAttribute_absent);
    try (by apply add_present);
    try (by apply remove_absent).
  - destruct H as [Hc Ha]. rewrite (add_present _ _ Hc).
    by apply setAttribute_present.
  - destruct H as [Hc Ha]. rewrite (removeAttribute_absent _ _ Ha).
    by apply remove_absent.
Qed.

Create Rewrite HintDb dom.
#[local] Hint Rewrite contains_add_same contains_remove_same attributes_add : dom.
#[local] Hint Rewrite contains_add_other contains_remove_other
  using discriminate : dom.

Ltac dom_simpl :=
  cbn [in_sync apply_flag classList attributes setAttribute removeAttribute
       classList_remove];
  repeat first
    [ progress autorewrite with dom
    | rewrite lookup_insert_eq
    | rewrite lookup_delete_eq
    | rewrite lookup_insert_ne by discriminate
    | rewrite lookup_delete_ne by discriminate
    | progress change (classList_contains ?t (setAttribute ?n ?v ?el))
        with (classList_contains t el)
    | progress change (classList_contains ?t (removeAttribute ?n ?el))
        with (classList_contains t el)
    | progress change (attributes (classList_remove ?t ?el)) with (attributes el)
    | progress change (attributes (setAttribute ?n ?v ?el))
        with (<[n := v]> (attributes el))
    | progress change (attributes (removeAttribute ?n ?el))
        with (delete n (attributes el)) ].

Lemma in_sync_apply_flag k on root : in_sync k on (apply_flag k on root).
Proof. destruct k, on; dom_simpl; auto. Qed.

Lemma in_sync_apply_other k k' on on' root :
  k ≠ k' -> in_sync k on root -> in_sync k on (apply_flag k' on' root).
Proof.
  intros Hne H. destruct k, k'; try congruence; destruct on'; dom_simpl; exact H.
Qed.

Lemma in_sync_after_apply settings root k :
  in_sync k (get_flag k settings) (useApplyAccessibilitySettings settings root).
Proof.
  rewrite apply_steps.
  destruct k; cbn [get_flag];
    repeat first
      [ apply in_sync_apply_flag
      | apply in_sync_apply_other; [discriminate|] ].
Qed.

Lemma apply_when_in_sync settings root :
  (∀ k, in_sync k (get_flag k settings) root) ->
  useApplyAccessibilitySettings settings root = root.
Proof.
  intros H. rewrite apply_steps.
  rewrite (apply_flag_in_sync HighContrast) by apply (H HighContrast).
  rewrite (apply_flag_in_sync LargeText) by apply (H LargeText).
  rewrite (apply_flag_in_sync KeyboardNav) by apply (H KeyboardNav).
  rewrite (apply_flag_in_sync ScreenReader) by apply (H ScreenReader).
  by rewrite (apply_flag_in_sync VoiceNavigation) by apply (H VoiceNavigation).
Qed.

(** Changing one flag of settings the element is in sync with runs the step of
    that flag only. *)
Lemma apply_one_change settings root k v :
  (∀ k', in_sync k' (get_flag k' settings) root) ->
  useApplyAccessibilitySettings (set_flag k v settings) root = apply_flag k v root.
Proof.
  intros H. rewrite apply_steps.
  pose proof (H VoiceNavigation) as Hvn. pose proof (H ScreenReader) as Hsr.
  pose proof (H HighContrast) as Hhc. pose proof (H LargeText) as Hlt.
  pose proof (H KeyboardNav) as Hkn. cbn [get_flag] in *.
  destruct k; cbn [set_flag voiceNavigation screenReader highContrast largeText
                   keyboardNav];
    repeat first
      [ rewrite (apply_flag_in_sync HighContrast (highContrast settings))
          by (repeat first [assumption | apply in_sync_apply_other; [discriminate|]])
      | rewrite (apply_flag_in_sync LargeText (largeText settings))
          by (repeat first [assumption | apply in_sync_apply_other; [discriminate|]])
      | rewrite (apply_flag_in_sync KeyboardNav (keyboardNav settings))
          by (repeat first [assumption | apply in_sync_apply_other; [discriminate|]])
      | rewrite (apply_flag_in_sync ScreenReader (screenReader settings))
          by (repeat first [assumption | apply in_sync_apply_other; [discriminate|]])
      | rewrite (apply_flag_in_sync VoiceNavigation (voiceNavigation settings))
          by (repeat first [assumption | apply in_sync_apply_other; [discriminate|]]) ];
    reflexivity.
Qed.

Lemma apply_flag_off_on k root :
  in_sync k false root -> apply_flag k false (apply_flag k true root) = root.
Proof.
  destruct k; cbn [in_sync apply_flag]; intros H.
  - apply element_eq; [reflexivity|]. by apply delete_insert_id.
  - apply element_eq; [reflexivity|]. by apply delete_insert_id.
  - by apply remove_add.
  - by apply remove_add.
  - destruct H as [Hc Ha]. apply element_eq.
    + change (classList (classList_remove "keyboard-nav" (classList_add "keyboard-nav" root))
              = classList root).
      by rewrite remove_add.
    + cbn [attributes classList_remove removeAttribute setAttribute].
      rewrite attributes_add. by apply delete_insert_id.
Qed.

Lemma marker_in_sync k on root : in_sync k on root -> marker k root = on.
Proof.
  destruct k; cbn [in_sync marker]; unfold hasAttribute; try done.
  - intros ->. by destruct on.
  - intros ->. by destruct on.
  - intros [-> ->]. by destruct on.
Qed.

(** C5. For every flag assignment and every document element, running the
    effect a second time with the same flags changes nothing: the class list
    (order included) and the attributes are those left by the first run. *)
Theorem apply_twice_is_apply_once (settings : AccessibilitySettings)
    (root : Element) :
  useApplyAccessibilitySettings settings
    (useApplyAccessibilitySettings settings root)
  = useApplyAccessibilitySettings settings root.
Proof. apply apply_when_in_sync. intros k. apply in_sync_after_apply. Qed.

(** C6. For each flag [k], every flag assignment and every element: if [k] is
    off, then from the element the effect left for these settings, running the
    effect with [k] on and then again with [k] off gives that element back.
    After the effect has run, the marker of [k] is there exactly when [k] is
    on (for keyboardNav: the class and the attribute are both there, or both
    gone); the marker of [k] does not change with the value of any other
    flag; and changing [k] alone runs the step of [k] alone. *)
Theorem toggle_on_then_off_restores (settings : AccessibilitySettings)
    (root : Element) (k : FlagName) :
  (get_flag k settings = false ->
   useApplyAccessibilitySettings settings
     (useApplyAccessibilitySettings (set_flag k true settings)
        (useApplyAccessibilitySettings settings root))
   = useApplyAccessibilitySettings settings root) ∧
  in_sync k (get_flag k settings) (useApplyAccessibilitySettings settings root) ∧
  marker k (useApplyAccessibilitySettings settings root) = get_flag k settings ∧
  (∀ k' v, k' ≠ k ->
     marker k (useApplyAccessibilitySettings (set_flag k' v settings) root)
     = marker k (useApplyAccessibilitySettings settings root)) ∧
  (∀ v, useApplyAccessibilitySettings (set_flag k v settings)
          (useApplyAccessibilitySettings settings root)
        = apply_flag k v (useApplyAccessibilitySettings settings root)).
Proof.
  assert (Hsync : ∀ k', in_sync k' (get_flag k' settings)
                          (useApplyAccessibilitySettings settings root)).
  { intros k'. apply in_sync_after_apply. }
  split; [|split; [|split; [|split]]].
  - intros Hoff.
    set (root0 := useApplyAccessibilitySettings settings root) in *.
    rewrite (apply_one_change settings root0 k true Hsync).
    rewrite <- (set_flag_restore k true settings) at 1. rewrite Hoff.
    rewrite (apply_one_change (set_flag k true settings) _ k false).
    + apply apply_flag_off_on. rewrite <- Hoff. apply Hsync.
    + intros k'. destruct (decide (k = k')) as [<-|Hne].
      * rewrite set_flag_same. apply in_sync_apply_flag.
      * rewrite set_flag_other by done.
        apply in_sync_apply_other; [congruence|apply Hsync].
  - apply Hsync.
  - apply marker_in_sync, Hsync.
  - intros k' v Hne.
    rewrite !(marker_in_sync k _ _ (in_sync_after_apply _ _ k)).
    by apply set_flag_other.
  - intros v. by apply apply_one_change.
Qed.

Lemma toggle_on_then_off_restores_witness :
  useApplyAccessibilitySettings (all_flags false)
    (useApplyAccessibilitySettings (set_flag HighContrast true (all_flags false))
       (useApplyAccessibilitySettings (all_flags false) root_plain))
  = useApplyAccessibilitySettings (all_flags false) root_plain.
Proof.
  destruct (toggle_on_then_off_restores (all_flags false) root_plain HighContrast)
    as (Hrestore & _).
  apply Hrestore. reflexivity.
Defined.

(** ** The hook *)

Lemma get_prop_not_null data name :
  data ≠ JNull ->
  get_prop data name = inr (own_prop data name).
Proof. destruct data; intros H; try reflexivity. by destruct H. Qed.

Lemma load_success net userId s data :
  read_succeeds (net (GET_call userId)) data ->
  Client.load net userId s =
    {| Client.settings :=
         {| voiceNavigation := own_prop data "voiceNavigation";
            screenReader := own_prop data "screenReader";
            highContrast := own_prop data "highContrast";
            largeText := own_prop data "largeText";
            keyboardNav := own_prop data "keyboardNav" |};
       Client.isLoading := false;
       Client.error := None;
       Client.sent := Client.sent s ++ [GET_call userId] |}.
Proof.
  intros (response & Hnet & Hok & Hjson & Hdata).
  unfold Client.load, Eff.exec, Client.fetchSettings, Eff.finally, Eff.try_catch,
    Eff.bind, Client.fetch, Client.setIsLoading, Eff.modify.
  cbn [Client.settings Client.isLoading Client.error Client.sent].
  fold (GET_call userId). rewrite Hnet, Hok. cbn [negb Eff.ret Eff.await].
  rewrite Hjson. rewrite !(get_prop_not_null _ _ Hdata).
  reflexivity.
Qed.





Lemma JSON_stringify_members data :
  ∃ members, Client.JSON_stringify data = JObj members ∧
             ∀ k, members !! key k = through_JSON <$> get_flag k data.
Proof.
  eexists. split; [reflexivity|].
  intros k. unfold Client.stringify_prop, flag_names. cbn [foldr].
  destruct data as [vn sr hc lt kn]. cbn [get_flag voiceNavigation screenReader
    highContrast largeText keyboardNav].
  destruct vn, sr, hc, lt, kn, k; cbn [key get_flag];
    repeat first [ rewrite lookup_insert_eq
                 | rewrite lookup_insert_ne by discriminate
                 | rewrite lookup_empty ];
    reflexivity.
Qed.

Lemma persistSettings_run net data userId s :
  Eff.exec (Client.persistSettings net data userId) s =
    {| Client.settings := Client.settings s;
       Client.isLoading := Client.isLoading s;
       Client.error :=
         match net (PUT_call userId data) with
         | inl (ThrownError message) => Some message
         | inl ThrownOther => Some "Failed to save settings"
         | inr response =>
             if Client.ok response then None
             else Some ("Failed to save settings: "
                          +:+ pretty (Client.status response) +:+ " "
                          +:+ Client.error_detail response)
         end;
       Client.sent := (Client.sent s ++ [PUT_call userId data])%list |}.
Proof.
  unfold Eff.exec, Client.persistSettings, Eff.try_catch, Eff.bind, Client.fetch.
  fold (PUT_call userId data).
  destruct (net (PUT_call userId data)) as [[m|]|response]; try reflexivity.
  destruct (Client.ok response); reflexivity.
Qed.

Lemma updateSetting_run net userId rendered k value s :
  Eff.exec (Client.updateSetting net userId rendered k value) s =
  Eff.exec (Client.persistSettings net
              (set_flag k (Some (JBool value)) rendered) userId)
    (Eff.exec (Client.setSettings (set_flag k (Some (JBool value)) rendered)) s).
Proof. reflexivity. Qed.

(** C8, as amended. The callback [updateSetting] merges into the flags
    [rendered] of the render that built it: for every flag [k] and boolean
    [value] it first shows [rendered] with [k] replaced by [value], before
    anything is sent, and then runs [persistSettings] on that state.
    These are the prior flags of the state with [k] replaced when the
    callback comes from the render showing that state. Exactly one PUT goes
    out; its body carries the merged flags as JSON writes them, among them
    [k] with [value], and the five booleans when the merged flags are
    booleans. Whatever the outcome of that call, the flags shown remain the
    merged ones: a successful write clears the error, a failed one records
    a message ("Failed to save settings:" with the status and its detail for
    a response that is not ok) and rolls nothing back. *)
Theorem updateSetting_is_optimistic (net : Client.Network)
    (userId : option string) (rendered : Flags jsval) (k : FlagName)
    (value : bool) (s : Client.HookState) :
  let merged := set_flag k (Some (JBool value)) rendered in
  let shown := Eff.exec (Client.setSettings merged) s in
  let s' := Eff.exec (Client.updateSetting net userId rendered k value) s in
  let outcome := net (PUT_call userId merged) in
  (Client.settings shown = merged ∧ Client.sent shown = Client.sent s ∧
   s' = Eff.exec (Client.persistSettings net merged userId) shown) ∧
  (rendered = Client.settings s ->
   Client.settings shown = set_flag k (Some (JBool value)) (Client.settings s) ∧
   Client.settings s' = set_flag k (Some (JBool value)) (Client.settings s)) ∧
  (Client.sent s' = (Client.sent s ++ [PUT_call userId merged])%list ∧
   ∃ members, Client.body (PUT_call userId merged) = Some (JObj members) ∧
              members !! key k = Some (JBool value) ∧
              (∀ k', members !! key k' = through_JSON <$> get_flag k' merged) ∧
              (∀ P, merged = map_flags (λ b, Some (JBool b)) P ->
                    ∀ k', members !! key k' = Some (JBool (get_flag k' P)))) ∧
  Client.settings s' = merged ∧
  (write_succeeds outcome -> Client.error s' = None) ∧
  (¬ write_succeeds outcome -> ∃ msg, Client.error s' = Some msg) ∧
  (∀ response, outcome = inr response -> Client.ok response = false ->
     Client.error s' =
       Some ("Failed to save settings: " +:+ pretty (Client.status response)
               +:+ " " +:+ Client.error_detail response)).
Proof.
  cbv zeta.
  set (merged := set_flag k (Some (JBool value)) rendered).
  rewrite updateSetting_run. fold merged. rewrite persistSettings_run.
  cbn [Client.settings Client.sent Client.error Client.isLoading Eff.exec
       Client.setSettings Eff.modify fst].
  split; [|split; [|split; [|split; [|split; [|split]]]]].
  - repeat split.
  - intros ->. split; reflexivity.
  - split; [reflexivity|]. cbn [PUT_call Client.body].
    destruct (JSON_stringify_members merged) as (members & -> & Hm).
    exists members. split; [reflexivity|]. split; [|split; [exact Hm|]].
    + rewrite Hm. subst merged. by destruct k.
    + intros P HP k'. rewrite Hm, HP. by destruct k'.
  - reflexivity.
  - intros (response & -> & ->). reflexivity.
  - intros Hfail. destruct (net (PUT_call userId merged)) as [[m|]|response] eqn:Hnet;
      [eauto..|].
    destruct (Client.ok response) eqn:Hok; [|eauto].
    destruct Hfail. by exists response.
  - intros response -> ->. reflexivity.
Qed.

Lemma updateSetting_is_optimistic_witness :
  ∃ msg,
    Client.error
      (Eff.exec (Client.updateSetting net_500 None Client.DEFAULT_SETTINGS
                   HighContrast true) Client.initial)
    = Some msg.
Proof.
  destruct (updateSetting_is_optimistic net_500 None Client.DEFAULT_SETTINGS
              HighContrast true Client.initial)
    as (_ & _ & _ & _ & _ & Hfailed & _).
  apply Hfailed.
  intros (response & Hnet & Hok). injection Hnet as <-. discriminate Hok.
Defined.

(** C8, as stated, fails for a callback that is called again before the
    next render. Two calls of the callback of the first render, each
    answered 200: after the first, high contrast is on; the second does
    not leave the prior flags with large text replaced, it starts from the
    flags of the render again, so high contrast is off. *)
Lemma updateSetting_twice_loses_the_first :
  ∃ s1 s2,
    s1 = Eff.exec (Client.updateSetting net_200 None
                     (Client.settings Client.initial) HighContrast true)
           Client.initial ∧
    s2 = Eff.exec (Client.updateSetting net_200 None
                     (Client.settings Client.initial) LargeText true) s1 ∧
    Client.settings s1
      = set_flag HighContrast (Some (JBool true)) (Client.settings Client.initial) ∧
    Client.settings s2
      ≠ set_flag LargeText (Some (JBool true)) (Client.settings s1) ∧
    highContrast (Client.settings s1) = Some (JBool true) ∧
    highContrast (Client.settings s2) = Some (JBool false) ∧
    Client.error s1 = None ∧ Client.error s2 = None.
Proof.
  eexists _, _. split; [reflexivity|]. split; [reflexivity|].
  split; [reflexivity|]. split; [discriminate|]. repeat split.
Qed.

(** A failed write, run: the toggle stays on, the error is shown. *)
Example updateSetting_failed_write :
  Eff.exec (Client.updateSetting net_500 None Client.DEFAULT_SETTINGS
              HighContrast true) Client.initial =
    {| Client.settings := set_flag HighContrast (Some (JBool true)) Client.DEFAULT_SETTINGS;
       Client.isLoading := true;
       Client.error := Some "Failed to save settings: 500 Internal server error";
       Client.sent :=
         [ {| Client.url := "/api/accessibility"; Client.method := "PUT";
              Client.header_x_user_id := "demo-user-1";
              Client.body :=
                Some (Client.JSON_stringify
                        (set_flag HighContrast (Some (JBool true))
                           Client.DEFAULT_SETTINGS)) |} ] |}.
Proof. reflexivity. Qed.

(** [updateSettings] follows the same course with several flags at once: the
    merged flags are shown, one PUT carries them, and they stay. *)
Lemma updateSettings_is_optimistic (net : Client.Network)
    (userId : option string) (rendered : Flags jsval)
    (partial : Flags (option jsval)) (s : Client.HookState) :
  let merged := Client.spread rendered partial in
  let s' := Eff.exec (Client.updateSettings net userId rendered partial) s in
  Client.settings s' = merged ∧
  Client.sent s' = (Client.sent s ++ [PUT_call userId merged])%list ∧
  Client.isLoading s' = Client.isLoading s.
Proof.
  cbv zeta.
  set (merged := Client.spread rendered partial).
  assert (Hrun : Eff.exec (Client.updateSettings net userId rendered partial) s =
                 Eff.exec (Client.persistSettings net merged userId)
                   (Eff.exec (Client.setSettings merged) s)).
  { reflexivity. }
  rewrite Hrun, persistSettings_run. repeat split.
Qed.

(** * More properties *)

(** ** The handlers and the store *)

Lemma ensure_user_fails env userId db :
  ¬ can_provision userId db ->
  Route.ensure_user env userId db = (db, inl (UniqueConstraintFailed "User" "email")).
Proof.
  intros Hn. unfold Route.ensure_user, Eff.bind, user_findUnique.
  destruct (user db !! userId) as [u|] eqn:Hu.
  { destruct Hn. left. eauto. }
  unfold user_create. rewrite Hu.
  destruct (email_taken _ _) eqn:He; [reflexivity|].
  destruct Hn. right. exact He.
Qed.

Lemma GET_as_blocked env userId db :
  userId ≠ "" -> ¬ can_provision userId db ->
  Route.GET_as env userId db =
    (Route.internal_error env (UniqueConstraintFailed "User" "email"), db).
Proof.
  intros Hne Hn. unfold Route.GET_as, Eff.try_return.
  rewrite (str_falsy_false _ Hne). unfold Eff.bind at 1.
  by rewrite (ensure_user_fails _ _ _ Hn).
Qed.

Lemma PUT_as_blocked env userId payload db :
  userId ≠ "" -> ¬ can_provision userId db ->
  Route.PUT_as env userId payload db =
    (Route.internal_error env (UniqueConstraintFailed "User" "email"), db).
Proof.
  intros Hne Hn. unfold Route.PUT_as, Eff.try_return.
  rewrite (str_falsy_false _ Hne). unfold Eff.bind at 1.
  by rewrite (ensure_user_fails _ _ _ Hn).
Qed.

Lemma provisioned_other env userId db uid :
  uid ≠ userId -> user (provisioned env userId db) !! uid = user db !! uid.
Proof.
  intros Hne. unfold provisioned. destruct (user db !! userId); [reflexivity|].
  simpl. by rewrite lookup_insert_ne.
Qed.

(** The store either handler leaves is the store it found, with the caller's
    user provisioned and at most the caller's row written. *)
Lemma GET_as_store env userId db :
  userId ≠ "" ->
  snd (Route.GET_as env userId db) = db ∨
  snd (Route.GET_as env userId db) = provisioned env userId db ∨
  ∃ row, snd (Route.GET_as env userId db)
         = with_row userId row (provisioned env userId db).
Proof.
  intros Hne. destruct (can_provision_dec userId db) as [Hp|Hn].
  - rewrite (GET_as_run env userId db Hne Hp).
    destruct (accessibilitySettings db !! userId); simpl; eauto.
  - rewrite (GET_as_blocked env userId db Hne Hn). auto.
Qed.

Lemma PUT_as_store env userId payload db :
  userId ≠ "" ->
  snd (Route.PUT_as env userId payload db) = db ∨
  snd (Route.PUT_as env userId payload db) = provisioned env userId db ∨
  ∃ row, snd (Route.PUT_as env userId payload db)
         = with_row userId row (provisioned env userId db).
Proof.
  intros Hne. destruct (can_provision_dec userId db) as [Hp|Hn].
  - destruct payload as [[| | | | |members]|];
      try (match goal with
           | |- context [Route.PUT_as env userId ?payload db] =>
               let Hr := fresh in
               assert (Hr : ∀ members, payload ≠ Some (JObj members)) by discriminate;
               destruct (PUT_as_rejected env userId db Hne Hp payload Hr)
                 as (r & -> & _)
           end; simpl; auto).
    rewrite (PUT_as_run env userId db Hne Hp members).
    destruct (expected_details members); simpl; eauto.
  - rewrite (PUT_as_blocked env userId payload db Hne Hn). auto.
Qed.

(** X1. Every store the handlers can produce from the empty one is
    consistent (every user carries the address [<id>@local], every settings
    row is filed under its own user, who exists, and row ids are below the
    counter and distinct), and in such a store
    a [User] row can be provisioned for every identity: the unique-address
    failure that makes a handler answer 500 cannot arise from the handlers'
    own writes. *)
Theorem handlers_keep_store_consistent (db : Db) :
  reachable db ->
  consistent db ∧ ∀ userId, can_provision userId db.
Proof.
  intros Hr. split; [by apply reachable_consistent|].
  intros userId. by apply reachable_can_provision.
Qed.

Lemma handlers_keep_store_consistent_witness :
  consistent (snd (Route.PUT env_dev no_identity
                     (snd (Route.GET env_later no_identity empty_db)))).
Proof.
  apply (handlers_keep_store_consistent
           (snd (Route.PUT env_dev no_identity
                   (snd (Route.GET env_later no_identity empty_db))))).
  apply reachable_PUT, reachable_GET, reachable_empty.
Defined.

(** X2. A GET or PUT changes neither the settings row nor the [User] row of
    any identity other than the one the request resolves to, whatever the
    request carries and however it is answered. *)
Theorem handlers_leave_other_users_alone (env : Route.Env) (req : Route.Request)
    (db : Db) (other : string) :
  other ≠ resolve (Route.x_user_id req) ->
  (accessibilitySettings (snd (Route.GET env req db)) !! other
     = accessibilitySettings db !! other ∧
   user (snd (Route.GET env req db)) !! other = user db !! other) ∧
  (accessibilitySettings (snd (Route.PUT env req db)) !! other
     = accessibilitySettings db !! other ∧
   user (snd (Route.PUT env req db)) !! other = user db !! other).
Proof.
  intros Hother. unfold Route.GET, Route.PUT. cbv zeta.
  fold (resolve (Route.x_user_id req)).
  split.
  - destruct (GET_as_store env _ db (resolve_nonempty (Route.x_user_id req)))
      as [-> | [-> | [row ->]]]; simpl;
      rewrite ?provisioned_settings, ?lookup_insert_ne, ?provisioned_other by done;
      done.
  - destruct (PUT_as_store env _ (Route.json_body req) db
                (resolve_nonempty (Route.x_user_id req)))
      as [-> | [-> | [row ->]]]; simpl;
      rewrite ?provisioned_settings, ?lookup_insert_ne, ?provisioned_other by done;
      done.
Qed.

Lemma handlers_leave_other_users_alone_witness :
  accessibilitySettings
    (snd (Route.PUT env_dev
            {| Route.x_user_id := Some "u2";
               Route.json_body := Some (JObj (payload_of (all_flags true))) |}
            db_u1)) !! "u1"
  = accessibilitySettings db_u1 !! "u1".
Proof.
  apply (handlers_leave_other_users_alone env_dev
           {| Route.x_user_id := Some "u2";
              Route.json_body := Some (JObj (payload_of (all_flags true))) |}
           db_u1 "u1").
  discriminate.
Defined.

(** X3. When the caller already has a settings row, GET answers 200 with
    exactly that row and writes no settings row and takes no new id; when
    the [User] row exists too, the store is left as it was. *)
Theorem GET_only_reads_an_existing_row (env : Route.Env) (req : Route.Request)
    (db : Db) (row : SettingsRow) :
  accessibilitySettings db !! resolve (Route.x_user_id req) = Some row ->
  can_provision (resolve (Route.x_user_id req)) db ->
  fst (Route.GET env req db) = Route.json_response (Route.SettingsBody row) 200 ∧
  accessibilitySettings (snd (Route.GET env req db)) = accessibilitySettings db ∧
  next_id (snd (Route.GET env req db)) = next_id db ∧
  (is_Some (user db !! resolve (Route.x_user_id req)) ->
   snd (Route.GET env req db) = db).
Proof.
  intros Hrow Hp. unfold Route.GET. cbv zeta.
  fold (resolve (Route.x_user_id req)).
  rewrite (GET_as_run env _ db (resolve_nonempty _) Hp), Hrow. simpl.
  rewrite provisioned_settings, provisioned_next_id.
  repeat split. intros [u Hu]. unfold provisioned. by rewrite Hu.
Qed.

Lemma GET_only_reads_an_existing_row_witness :
  snd (Route.GET env_later
         {| Route.x_user_id := Some "u1"; Route.json_body := None |} db_u1)
  = db_u1.
Proof.
  destruct (GET_only_reads_an_existing_row env_later
              {| Route.x_user_id := Some "u1"; Route.json_body := None |} db_u1
              {| id := 0; userId := "u1"; flags := contrast_on;
                 createdAt := 3; updatedAt := 3 |})
    as (_ & _ & _ & Hsame).
  - reflexivity.
  - left. vm_compute. eauto.
  - apply Hsame. vm_compute. eauto.
Defined.

(** X4. PUT provisions the [User] row before it validates the body: a
    payload with a mistyped flag, sent for an identity that has no [User]
    row yet, is answered 400 and writes no settings row, yet the [User] row
    with the address [<userId>@local] has been created. *)
Theorem PUT_rejected_payload_still_creates_user (env : Route.Env)
    (req : Route.Request) (members : gmap string json) (db : Db)
    (k : FlagName) (v : json) :
  Route.json_body req = Some (JObj members) ->
  members !! key k = Some v -> getParsedType (Some v) ≠ z_boolean ->
  user db !! resolve (Route.x_user_id req) = None ->
  email_taken (resolve (Route.x_user_id req) +:+ "@local") (user db) = false ->
  Route.status (fst (Route.PUT env req db)) = 400 ∧
  user (snd (Route.PUT env req db)) !! resolve (Route.x_user_id req)
    = Some {| email := resolve (Route.x_user_id req) +:+ "@local";
              name := None; password := None;
              user_createdAt := Route.now env;
              user_updatedAt := Route.now env |} ∧
  accessibilitySettings (snd (Route.PUT env req db)) = accessibilitySettings db ∧
  next_id (snd (Route.PUT env req db)) = next_id db.
Proof.
  intros Hbody Hk Hv Hnone Hfree.
  assert (Hp : can_provision (resolve (Route.x_user_id req)) db) by (by right).
  unfold Route.PUT. cbv zeta. rewrite Hbody.
  fold (resolve (Route.x_user_id req)).
  rewrite (PUT_as_run env _ db (resolve_nonempty _) Hp members).
  pose proof (expected_details_elem _ _ _ Hk Hv) as Hin.
  destruct (expected_details members) as [|i issues]; [by apply elem_of_nil in Hin|].
  simpl. unfold provisioned. rewrite Hnone. simpl.
  rewrite lookup_insert_eq. done.
Qed.

Lemma PUT_rejected_payload_still_creates_user_witness :
  user empty_db !! "u1" = None ∧
  Route.status
    (fst (Route.PUT env_dev
            {| Route.x_user_id := Some "u1";
               Route.json_body := Some (JObj {[ "largeText" := JStr "yes" ]}) |}
            empty_db)) = 400 ∧
  is_Some (user (snd (Route.PUT env_dev
                  {| Route.x_user_id := Some "u1";
                     Route.json_body := Some (JObj {[ "largeText" := JStr "yes" ]}) |}
                  empty_db)) !! "u1").
Proof.
  split; [reflexivity|].
  destruct (PUT_rejected_payload_still_creates_user env_dev
              {| Route.x_user_id := Some "u1";
                 Route.json_body := Some (JObj {[ "largeText" := JStr "yes" ]}) |}
              {[ "largeText" := JStr "yes" ]} empty_db LargeText (JStr "yes"))
    as (H400 & Huser & _).
  - reflexivity.
  - reflexivity.
  - discriminate.
  - reflexivity.
  - reflexivity.
  - split; [exact H400|]. eexists. exact Huser.
Defined.

Lemma PUT_as_no_object env userId payload db :
  userId ≠ "" -> can_provision userId db ->
  (∀ members, payload ≠ Some (JObj members)) ->
  Route.PUT_as env userId payload db =
    (match payload with
     | None => Route.internal_error env SyntaxError
     | Some v =>
         Route.json_response
           (Route.ErrorBody (Route.Text "Validation error")
              (Some [invalid_type z_object (getParsedType (Some v)) []])) 400
     end, provisioned env userId db).
Proof.
  intros Hne Hp Hpay. unfold Route.PUT_as, Eff.try_return.
  rewrite (str_falsy_false _ Hne). unfold Eff.bind at 1.
  rewrite (ensure_user_run env userId db Hp).
  unfold Eff.bind, Eff.await.
  destruct payload as [[| | | | |members]|];
    try (by destruct (Hpay members)); reflexivity.
Qed.

(** X5. A PUT whose body is not a JSON object is never stored: a body
    that cannot be parsed as JSON is answered by the 500 branch (the
    [SyntaxError] is no [ZodError]), and any other JSON value (null, a
    boolean, a number, a string, an array) is answered 400 with the single
    issue "expected object" at the empty path. *)
Theorem PUT_rejects_a_body_that_is_no_object (env : Route.Env)
    (req : Route.Request) (db : Db) :
  can_provision (resolve (Route.x_user_id req)) db ->
  (∀ members, Route.json_body req ≠ Some (JObj members)) ->
  fst (Route.PUT env req db) =
    match Route.json_body req with
    | None => Route.internal_error env SyntaxError
    | Some v =>
        Route.json_response
          (Route.ErrorBody (Route.Text "Validation error")
             (Some [invalid_type z_object (getParsedType (Some v)) []])) 400
    end ∧
  accessibilitySettings (snd (Route.PUT env req db)) = accessibilitySettings db.
Proof.
  intros Hp Hbody. unfold Route.PUT. cbv zeta.
  fold (resolve (Route.x_user_id req)).
  rewrite (PUT_as_no_object env _ _ db (resolve_nonempty _) Hp Hbody).
  split; [reflexivity|]. apply provisioned_settings.
Qed.

Lemma PUT_rejects_a_body_that_is_no_object_witness :
  fst (Route.PUT env_dev
         {| Route.x_user_id := Some "u1"; Route.json_body := Some (JArr []) |}
         empty_db)
  = Route.json_response
      (Route.ErrorBody (Route.Text "Validation error")
         (Some [invalid_type z_object z_array []])) 400.
Proof.
  destruct (PUT_rejects_a_body_that_is_no_object env_dev
              {| Route.x_user_id := Some "u1"; Route.json_body := Some (JArr []) |}
              empty_db) as (Hresponse & _).
  - right. reflexivity.
  - discriminate.
  - exact Hresponse.
Defined.



(** X7. Two PUTs in a row for the same identity, each carrying booleans
    or nothing for the five flags, both succeed; the second replaces all
    five flags by its own (an omitted flag by false) and sets [updatedAt]
    to its own time, and keeps the row's [id] and [createdAt] and takes no
    new id. The first one creates the row, with the next id and its own
    time as [createdAt], when there was none. *)
Theorem PUT_replaces_flags_and_keeps_identity (env1 env2 : Route.Env)
    (h : option string) (members1 members2 : gmap string json) (db : Db) :
  can_provision (resolve h) db ->
  (∀ k, members1 !! key k = None ∨ ∃ b, members1 !! key k = Some (JBool b)) ->
  (∀ k, members2 !! key k = None ∨ ∃ b, members2 !! key k = Some (JBool b)) ->
  ∃ row1 row2 db1 db2,
    Route.PUT env1
      {| Route.x_user_id := h; Route.json_body := Some (JObj members1) |} db
      = (Route.json_response (Route.SettingsBody row1) 200, db1) ∧
    Route.PUT env2
      {| Route.x_user_id := h; Route.json_body := Some (JObj members2) |} db1
      = (Route.json_response (Route.SettingsBody row2) 200, db2) ∧
    accessibilitySettings db2 !! resolve h = Some row2 ∧
    (∀ k, get_flag k (flags row2) = field_value (members2 !! key k)) ∧
    id row2 = id row1 ∧ createdAt row2 = createdAt row1 ∧
    updatedAt row2 = Route.now env2 ∧
    next_id db2 = next_id db1 ∧
    (accessibilitySettings db !! resolve h = None ->
     id row1 = next_id db ∧ createdAt row1 = Route.now env1 ∧
     next_id db1 = S (next_id db)).
Proof.
  intros Hp H1 H2.
  apply expected_details_nil in H1. apply expected_details_nil in H2.
  assert (Hput1 := PUT_as_run env1 _ db (resolve_nonempty h) Hp members1).
  rewrite H1 in Hput1. cbv zeta in Hput1.
  set (row1 := written_row env1 (resolve h) (read_flags members1) db) in *.
  set (db1 := with_row (resolve h) row1 (provisioned env1 (resolve h) db)) in *.
  assert (Hp1 : can_provision (resolve h) db1).
  { apply can_provision_with_row, can_provision_after. }
  assert (Hrow1 : accessibilitySettings db1 !! resolve h = Some row1).
  { apply lookup_insert_eq. }
  assert (Hput2 := PUT_as_run env2 _ db1 (resolve_nonempty h) Hp1 members2).
  rewrite H2 in Hput2. cbv zeta in Hput2.
  assert (Hw2 : written_row env2 (resolve h) (read_flags members2) db1 =
                {| id := id row1; userId := userId row1;
                   flags := read_flags members2;
                   createdAt := createdAt row1; updatedAt := Route.now env2 |}).
  { unfold written_row. by rewrite Hrow1. }
  rewrite Hw2 in Hput2.
  eexists row1, _, db1, _. split; [exact Hput1|]. split; [exact Hput2|].
  cbn [id createdAt updatedAt flags].
  split; [apply lookup_insert_eq|].
  split; [intros k; apply read_flags_get|].
  split; [reflexivity|]. split; [reflexivity|]. split; [reflexivity|].
  split.
  - unfold with_row at 1. cbn [next_id].
    by rewrite provisioned_settings, Hrow1, provisioned_next_id.
  - intros Hnone. subst db1 row1. unfold with_row, written_row.
    rewrite Hnone. cbn [id createdAt next_id].
    rewrite provisioned_settings, Hnone, provisioned_next_id. done.
Qed.

Lemma PUT_replaces_flags_and_keeps_identity_witness :
  ∃ row1 row2 db1 db2,
    Route.PUT env_dev (as_u1 (Some (JObj (payload_of (all_flags true))))) empty_db
      = (Route.json_response (Route.SettingsBody row1) 200, db1) ∧
    Route.PUT env_later (as_u1 (Some (JObj {[ "largeText" := JBool true ]}))) db1
      = (Route.json_response (Route.SettingsBody row2) 200, db2) ∧
    highContrast (flags row2) = false ∧ largeText (flags row2) = true ∧
    id row2 = id row1.
Proof.
  destruct (PUT_replaces_flags_and_keeps_identity env_dev env_later (Some "u1")
              (payload_of (all_flags true)) {[ "largeText" := JBool true ]}
              empty_db)
    as (row1 & row2 & db1 & db2 & Hput1 & Hput2 & _ & Hflags & Hid & _).
  - right. reflexivity.
  - intros []; vm_compute; eauto.
  - intros []; vm_compute; eauto.
  - exists row1, row2, db1, db2. split; [exact Hput1|]. split; [exact Hput2|].
    split; [exact (Hflags HighContrast)|]. split; [exact (Hflags LargeText)|].
    exact Hid.
Defined.

(** X8. PUT reads nothing of the body but the five flag properties: two
    object bodies that agree on those get the same response and leave the
    same store, whatever other properties they carry. *)
Theorem PUT_ignores_unknown_keys (env : Route.Env) (h : option string)
    (members1 members2 : gmap string json) (db : Db) :
  (∀ k, members1 !! key k = members2 !! key k) ->
  Route.PUT env {| Route.x_user_id := h; Route.json_body := Some (JObj members1) |} db
  = Route.PUT env {| Route.x_user_id := h; Route.json_body := Some (JObj members2) |} db.
Proof.
  intros Hsame.
  assert (Hparse : parse AccessibilitySettingsSchema (JObj members1)
                   = parse AccessibilitySettingsSchema (JObj members2)).
  { rewrite !parse_object. unfold expected_details, read_flags, flag_names.
    cbn [mbind list_bind].
    pose proof (Hsame VoiceNavigation) as Hvn. pose proof (Hsame ScreenReader) as Hsr.
    pose proof (Hsame HighContrast) as Hhc. pose proof (Hsame LargeText) as Hlt.
    pose proof (Hsame KeyboardNav) as Hkn. cbn [key] in *.
    by rewrite Hvn, Hsr, Hhc, Hlt, Hkn. }
  unfold Route.PUT, Route.PUT_as, Eff.try_return, Eff.bind, Eff.await.
  cbn [Route.x_user_id Route.json_body].
  destruct (str_falsy _); [reflexivity|].
  destruct (Route.ensure_user _ _ _) as [db' [e|[]]]; [reflexivity|].
  by rewrite Hparse.
Qed.

Lemma PUT_ignores_unknown_keys_witness :
  Route.PUT env_dev
    (as_u1 (Some (JObj (<["signLanguage" := JStr "yes"]> (payload_of contrast_on)))))
    db_u1
  = Route.PUT env_dev (as_u1 (Some (JObj (payload_of contrast_on)))) db_u1.
Proof.
  apply (PUT_ignores_unknown_keys env_dev (Some "u1")
           (<["signLanguage" := JStr "yes"]> (payload_of contrast_on))
           (payload_of contrast_on) db_u1).
  intros []; reflexivity.
Defined.

(** ** put.ts *)

Lemma PutFile_PUT_as_run env userId payload db :
  userId ≠ "" ->
  PutFile.PUT_as env userId payload db =
    match payload with
    | None =>
        (Route.json_response
           (Route.ErrorBody (Route.Text "Internal server error") None) 500, db)
    | Some body =>
        match parse AccessibilitySettingsSchema body with
        | inl issues =>
            (Route.json_response
               (Route.ErrorBody (Route.Text "Validation error") (Some issues)) 400,
             db)
        | inr data =>
            match accessibilitySettings db !! userId, user db !! userId with
            | None, None =>
                (Route.json_response
                   (Route.ErrorBody (Route.Text "Internal server error") None) 500,
                 db)
            | _, _ =>
                let row := written_row env userId data db in
                (Route.json_response (Route.SettingsBody row) 200,
                 with_row userId row db)
            end
        end
    end.
Proof.
  intros Hne. unfold PutFile.PUT_as, Eff.try_return.
  rewrite (str_falsy_false _ Hne).
  unfold Eff.bind, Eff.await, Eff.ret.
  destruct payload as [body|]; [|reflexivity].
  destruct (parse AccessibilitySettingsSchema body) as [issues|data]; [reflexivity|].
  unfold settings_upsert, settings_create, written_row, with_row.
  destruct (accessibilitySettings db !! userId) as [old|] eqn:Hold; [reflexivity|].
  destruct (user db !! userId); reflexivity.
Qed.

(** X9. The PUT of [put.ts] changes the store only when it answers 200.
    As it does not provision the [User] row, a valid body sent for an
    identity with no [User] row and no settings row is answered 500 with
    the fixed "Internal server error" (the foreign key rejects the insert)
    and leaves the store untouched. *)
Theorem put_file_PUT_writes_only_on_success (env : Route.Env)
    (req : Route.Request) (db : Db) :
  (Route.status (fst (PutFile.PUT env req db)) ≠ 200 ->
   snd (PutFile.PUT env req db) = db) ∧
  (∀ body, Route.json_body req = Some body ->
     user db !! resolve (Route.x_user_id req) = None ->
     accessibilitySettings db !! resolve (Route.x_user_id req) = None ->
     (∃ P, parse AccessibilitySettingsSchema body = inr P) ->
     PutFile.PUT env req db =
       (Route.json_response
          (Route.ErrorBody (Route.Text "Internal server error") None) 500, db)).
Proof.
  unfold PutFile.PUT. cbv zeta. fold (resolve (Route.x_user_id req)).
  rewrite (PutFile_PUT_as_run env _ (Route.json_body req) db (resolve_nonempty _)).
  split.
  - destruct (Route.json_body req) as [body|]; [|reflexivity].
    destruct (parse AccessibilitySettingsSchema body); [reflexivity|].
    destruct (accessibilitySettings db !! resolve (Route.x_user_id req)),
             (user db !! resolve (Route.x_user_id req));
      simpl; intros H; try reflexivity; by destruct H.
  - intros body -> Huser Hrow [P ->]. by rewrite Huser, Hrow.
Qed.

Lemma put_file_PUT_writes_only_on_success_witness :
  PutFile.PUT env_dev (as_u1 (Some (JObj (payload_of contrast_on)))) empty_db =
    (Route.json_response
       (Route.ErrorBody (Route.Text "Internal server error") None) 500, empty_db) ∧
  Route.status
    (fst (Route.PUT env_dev (as_u1 (Some (JObj (payload_of contrast_on)))) empty_db))
  = 200.
Proof.
  split; [|reflexivity].
  destruct (put_file_PUT_writes_only_on_success env_dev
              (as_u1 (Some (JObj (payload_of contrast_on)))) empty_db)
    as (_ & Hunknown).
  apply (Hunknown (JObj (payload_of contrast_on))).
  - reflexivity.
  - reflexivity.
  - reflexivity.
  - eexists. reflexivity.
Defined.

(** X10. For a caller whose [User] row exists and a body that is JSON,
    the PUT of [put.ts] and the PUT of [route.ts] give the same response
    and the same store. *)
Theorem put_file_PUT_agrees_for_a_known_user (env : Route.Env)
    (req : Route.Request) (body : json) (db : Db) :
  Route.json_body req = Some body ->
  is_Some (user db !! resolve (Route.x_user_id req)) ->
  PutFile.PUT env req db = Route.PUT env req db.
Proof.
  intros Hbody [u Hu].
  unfold PutFile.PUT, Route.PUT. cbv zeta. fold (resolve (Route.x_user_id req)).
  rewrite Hbody.
  rewrite (PutFile_PUT_as_run env _ (Some body) db (resolve_nonempty _)).
  assert (Hp : can_provision (resolve (Route.x_user_id req)) db) by (left; eauto).
  assert (Hsame : provisioned env (resolve (Route.x_user_id req)) db = db).
  { unfold provisioned. by rewrite Hu. }
  destruct body as [| | | | |members];
    try (match goal with
         | |- context [Route.PUT_as env ?u ?payload db] =>
             let Hr := fresh in
             assert (Hr : ∀ members, payload ≠ Some (JObj members)) by discriminate;
             rewrite (PUT_as_no_object env u payload db (resolve_nonempty _) Hp Hr),
               Hsame
         end; reflexivity).
  rewrite (PUT_as_run env _ db (resolve_nonempty _) Hp members), Hsame.
  rewrite parse_object.
  destruct (expected_details members); [|reflexivity].
  rewrite Hu. by destruct (accessibilitySettings db !! _).
Qed.

Lemma put_file_PUT_agrees_for_a_known_user_witness :
  PutFile.PUT env_dev (as_u1 (Some (JObj {[ "largeText" := JStr "yes" ]}))) db_u1
  = Route.PUT env_dev (as_u1 (Some (JObj {[ "largeText" := JStr "yes" ]}))) db_u1.
Proof.
  apply (put_file_PUT_agrees_for_a_known_user env_dev
           (as_u1 (Some (JObj {[ "largeText" := JStr "yes" ]})))
           (JObj {[ "largeText" := JStr "yes" ]}) db_u1).
  - reflexivity.
  - vm_compute. eauto.
Defined.

(** ** The hook against the handlers *)

Lemma drop_whitespace_plain (value : list Ascii.ascii) :
  Forall (λ c, plain_byte c = true) value -> Wire.drop_whitespace value = value.
Proof.
  destruct 1 as [|c rest Hc _]; [reflexivity|]. cbn [Wire.drop_whitespace].
  unfold plain_byte in Hc. apply andb_true_iff in Hc as [Hc _].
  apply negb_true_iff in Hc. by rewrite Hc.
Qed.

Lemma header_value_plain (value : string) :
  Forall (λ c, plain_byte c = true) (String.list_ascii_of_string value) ->
  Wire.header_value value = Some value.
Proof.
  intros Hplain. unfold Wire.header_value.
  assert (Hsame : Wire.normalize value = value).
  { unfold Wire.normalize. rewrite (drop_whitespace_plain _ Hplain).
    rewrite drop_whitespace_plain by by apply Forall_reverse.
    rewrite reverse_involutive. apply String.string_of_list_ascii_of_string. }
  rewrite Hsame.
  assert (Hnone : existsb Wire.refused_byte (String.list_ascii_of_string value)
                  = false).
  { induction Hplain as [|c rest Hc _ IH]; [reflexivity|]. cbn [existsb].
    rewrite IH. unfold plain_byte in Hc. apply andb_true_iff in Hc as [_ Hc].
    apply negb_true_iff in Hc. by rewrite Hc. }
  by rewrite Hnone.
Qed.

(** An identity made of plain bytes is served as it is, and no identity
    as 'demo-user-1'. *)
Lemma served_as_plain (userId : string) :
  userId ≠ "" ->
  Forall (λ c, plain_byte c = true) (String.list_ascii_of_string userId) ->
  served_as (Some userId) = Some userId.
Proof.
  intros Hne Hplain. unfold served_as. cbn [str_or].
  destruct (String.eqb_spec userId ""); [done|].
  rewrite (header_value_plain _ Hplain). cbn [mbind option_bind].
  unfold resolve. cbn [str_or]. by destruct (String.eqb_spec userId "").
Qed.

Lemma served_as_nobody : served_as None = Some "demo-user-1".
Proof. reflexivity. Qed.

Lemma served_as_identity userId u : served_as userId = Some u -> u ≠ "".
Proof.
  unfold served_as. destruct (Wire.header_value _) as [value|]; [|done].
  intros [= <-]. exact (resolve_nonempty (Some value)).
Qed.

Lemma deliver_served userId method body u :
  served_as userId = Some u ->
  ∃ req,
    Wire.deliver {| Client.url := "/api/accessibility"; Client.method := method;
                    Client.header_x_user_id := str_or userId "demo-user-1";
                    Client.body := body |} = Some req ∧
    resolve (Route.x_user_id req) = u ∧ Route.json_body req = body.
Proof.
  unfold served_as, Wire.deliver. cbn [Client.header_x_user_id Client.body].
  destruct (Wire.header_value _) as [value|]; [|done].
  intros [= <-]. eexists. split; [reflexivity|]. split; reflexivity.
Qed.

Lemma respond_GET_call w env userId u db :
  served_as userId = Some u ->
  ∃ req,
    Wire.deliver (GET_call userId) = Some req ∧
    Route.GET env req db = Route.GET_as env u db ∧
    Wire.respond w env db (GET_call userId)
      = inr (Wire.to_http w (fst (Route.GET_as env u db))) ∧
    Wire.store_after env (GET_call userId) db = snd (Route.GET_as env u db).
Proof.
  intros Hu. destruct (deliver_served userId "GET" None u Hu) as (req & Hreq & Hid & _).
  fold (GET_call userId) in Hreq. exists req. split; [exact Hreq|].
  assert (Hget : Route.GET env req db = Route.GET_as env u db).
  { unfold Route.GET. fold (resolve (Route.x_user_id req)). by rewrite Hid. }
  split; [exact Hget|].
  unfold Wire.respond, Wire.store_after. rewrite Hreq.
  cbn [GET_call Client.method].
  change (Wire.handle env "GET" req db) with (Some (Route.GET env req db)).
  rewrite Hget. by destruct (Route.GET_as env u db).
Qed.

Lemma respond_PUT_call w env userId data u db :
  served_as userId = Some u ->
  ∃ req,
    Wire.deliver (PUT_call userId data) = Some req ∧
    Route.PUT env req db
      = Route.PUT_as env u (Some (Client.JSON_stringify data)) db ∧
    Wire.respond w env db (PUT_call userId data)
      = inr (Wire.to_http w
               (fst (Route.PUT_as env u (Some (Client.JSON_stringify data)) db))) ∧
    Wire.store_after env (PUT_call userId data) db
      = snd (Route.PUT_as env u (Some (Client.JSON_stringify data)) db).
Proof.
  intros Hu.
  destruct (deliver_served userId "PUT" (Some (Client.JSON_stringify data)) u Hu)
    as (req & Hreq & Hid & Hbody).
  fold (PUT_call userId data) in Hreq. exists req. split; [exact Hreq|].
  assert (Hput : Route.PUT env req db
                 = Route.PUT_as env u (Some (Client.JSON_stringify data)) db).
  { unfold Route.PUT. fold (resolve (Route.x_user_id req)). by rewrite Hid, Hbody. }
  split; [exact Hput|].
  unfold Wire.respond, Wire.store_after. rewrite Hreq.
  cbn [PUT_call Client.method].
  change (Wire.handle env "PUT" req db) with (Some (Route.PUT env req db)).
  rewrite Hput. by destruct (Route.PUT_as env u _ db).
Qed.

Lemma row_json_flags w row k :
  own_prop (Wire.row_json w row) (key k) = js_bool (get_flag k (flags row)).
Proof.
  unfold Wire.row_json, own_prop, js_bool.
  destruct k; cbn [key get_flag];
    repeat first [ rewrite lookup_insert_eq
                 | rewrite lookup_insert_ne by discriminate ];
    reflexivity.
Qed.

Lemma stringify_booleans (F : AccessibilitySettings) :
  ∃ members,
    Client.JSON_stringify (map_flags js_bool F) = JObj members ∧
    expected_details members = [] ∧ read_flags members = F.
Proof.
  destruct (JSON_stringify_members (map_flags js_bool F)) as (members & Hs & Hm).
  exists members. split; [exact Hs|].
  assert (Hk : ∀ k, members !! key k = Some (JBool (get_flag k F))).
  { intros k. rewrite Hm. by destruct k. }
  split.
  - apply expected_details_nil. intros k. right. eauto.
  - apply flags_ext. intros k. by rewrite read_flags_get, Hk.
Qed.

Lemma map_flags_set {A B} (f : A -> B) k v (s : Flags A) :
  map_flags f (set_flag k v s) = set_flag k (f v) (map_flags f s).
Proof. by destruct k. Qed.

(** What the hook shows after a read that the handler answered. *)
Lemma load_from_server w env userId u db s :
  served_as userId = Some u ->
  can_provision u db ->
  ∃ req row,
    Wire.deliver (GET_call userId) = Some req ∧
    Route.GET env req db
      = (Route.json_response (Route.SettingsBody row) 200,
         Wire.store_after env (GET_call userId) db) ∧
    accessibilitySettings (Wire.store_after env (GET_call userId) db) !! u
      = Some row ∧
    (∀ old, accessibilitySettings db !! u = Some old -> row = old) ∧
    (accessibilitySettings db !! u = None -> flags row = all_flags false) ∧
    can_provision u (Wire.store_after env (GET_call userId) db) ∧
    Client.load (Wire.respond w env db) userId s =
      {| Client.settings := map_flags js_bool (flags row);
         Client.isLoading := false;
         Client.error := None;
         Client.sent := (Client.sent s ++ [GET_call userId])%list |}.
Proof.
  intros Hu Hp.
  destruct (respond_GET_call w env userId u db Hu)
    as (req & Hreq & Hget & Hnet & Hstore).
  pose proof (GET_as_run env u db (served_as_identity _ _ Hu) Hp) as Hrun.
  exists req. rewrite Hget, Hstore.
  assert (Hload : ∀ row db',
            Route.GET_as env u db
              = (Route.json_response (Route.SettingsBody row) 200, db') ->
            Client.load (Wire.respond w env db) userId s =
              {| Client.settings := map_flags js_bool (flags row);
                 Client.isLoading := false; Client.error := None;
                 Client.sent := (Client.sent s ++ [GET_call userId])%list |}).
  { intros row db' Hrow.
    rewrite (load_success (Wire.respond w env db) userId s (Wire.row_json w row)).
    - change "voiceNavigation" with (key VoiceNavigation).
      change "screenReader" with (key ScreenReader).
      change "highContrast" with (key HighContrast).
      change "largeText" with (key LargeText).
      change "keyboardNav" with (key KeyboardNav).
      by rewrite !row_json_flags.
    - rewrite Hnet, Hrow. eexists. split; [reflexivity|].
      split; [reflexivity|]. split; [reflexivity|]. discriminate. }
  destruct (accessibilitySettings db !! u) as [old|] eqn:Hold.
  - exists old. rewrite Hrun. cbn [snd].
    split; [exact Hreq|]. split; [reflexivity|].
    split; [by rewrite provisioned_settings|].
    split; [by intros ? [= <-]|]. split; [discriminate|].
    split; [apply can_provision_after|]. by apply (Hload old _ Hrun).
  - cbv zeta in Hrun. eexists. rewrite Hrun. cbn [snd].
    split; [exact Hreq|]. split; [reflexivity|]. split; [apply lookup_insert_eq|].
    split; [discriminate|]. split.
    { intros _. unfold written_row. by rewrite Hold. }
    split; [apply can_provision_with_row, can_provision_after|].
    by apply (Hload _ _ Hrun).
Qed.

(** What the hook shows, and the store holds, after a toggle that the handler
    answered. *)
Lemma update_through_server w env userId u db k value s F :
  served_as userId = Some u ->
  can_provision u db ->
  let merged := set_flag k value F in
  let call := PUT_call userId (map_flags js_bool merged) in
  ∃ req row,
    Wire.deliver call = Some req ∧
    Route.PUT env req db
      = (Route.json_response (Route.SettingsBody row) 200,
         Wire.store_after env call db) ∧
    flags row = merged ∧
    accessibilitySettings (Wire.store_after env call db) !! u = Some row ∧
    can_provision u (Wire.store_after env call db) ∧
    Eff.exec (Client.updateSetting (Wire.respond w env db) userId
                (map_flags js_bool F) k value) s =
      {| Client.settings := map_flags js_bool merged;
         Client.isLoading := Client.isLoading s;
         Client.error := None;
         Client.sent := (Client.sent s ++ [call])%list |}.
Proof.
  intros Hu Hp. cbv zeta.
  destruct (respond_PUT_call w env userId
              (map_flags js_bool (set_flag k value F)) u db Hu)
    as (req & Hreq & Hput & Hnet & Hstore).
  destruct (stringify_booleans (set_flag k value F)) as (members & Hs & Hd & Hf).
  pose proof (PUT_as_run env u db (served_as_identity _ _ Hu) Hp members) as Hrun.
  rewrite Hd, Hf in Hrun. cbv zeta in Hrun.
  rewrite Hs in Hput, Hnet, Hstore. rewrite Hrun in Hput, Hnet, Hstore.
  cbn [fst snd] in Hnet, Hstore.
  exists req. eexists. rewrite Hstore.
  split; [exact Hreq|]. split; [exact Hput|]. split.
  { unfold written_row. by destruct (accessibilitySettings db !! _). }
  split; [apply lookup_insert_eq|].
  split; [apply can_provision_with_row, can_provision_after|].
  rewrite updateSetting_run, persistSettings_run.
  change (Some (JBool value)) with (js_bool value).
  rewrite <- (@map_flags_set bool jsval js_bool).
  cbn [Client.settings Client.isLoading Client.sent Eff.exec Client.setSettings
       Eff.modify fst].
  rewrite Hnet. reflexivity.
Qed.

(** X11. The hook against the handlers: when [fetch] lets the identity
    through and its [User] row can be provisioned, loading makes one GET,
    the handler answers 200 with the row of the identity it is given (the
    hook's, with the white space around it removed), and the hook then
    shows exactly the five flags of that row, with no error and not
    loading: the stored flags when there is a row, the defaults when there
    is none. *)
Theorem hook_shows_what_GET_returns (w : Wire.Renderings) (env : Route.Env)
    (userId : option string) (u : string) (db : Db) (s : Client.HookState) :
  served_as userId = Some u ->
  can_provision u db ->
  ∃ req row db',
    Wire.deliver (GET_call userId) = Some req ∧
    Route.GET env req db
      = (Route.json_response (Route.SettingsBody row) 200, db') ∧
    accessibilitySettings db' !! u = Some row ∧
    Client.load (Wire.respond w env db) userId s =
      {| Client.settings := map_flags js_bool (flags row);
         Client.isLoading := false;
         Client.error := None;
         Client.sent := (Client.sent s ++ [GET_call userId])%list |} ∧
    (∀ stored, accessibilitySettings db !! u = Some stored -> row = stored) ∧
    (accessibilitySettings db !! u = None ->
     Client.settings (Client.load (Wire.respond w env db) userId s)
       = Client.DEFAULT_SETTINGS).
Proof.
  intros Hu Hp.
  destruct (load_from_server w env userId u db s Hu Hp)
    as (req & row & Hreq & Hget & Hstored & Hsame & Hfresh & _ & Hload).
  exists req, row, (Wire.store_after env (GET_call userId) db).
  split; [exact Hreq|]. split; [exact Hget|]. split; [exact Hstored|].
  split; [exact Hload|]. split; [exact Hsame|].
  intros Hnone. rewrite Hload. cbn [Client.settings]. by rewrite (Hfresh Hnone).
Qed.

Lemma hook_shows_what_GET_returns_witness :
  served_as (Some " u1 ") = Some "u1" ∧
  Client.settings (Client.load (Wire.respond plain_wire env_dev db_u1) (Some " u1 ")
                     Client.initial)
  = map_flags js_bool contrast_on.
Proof.
  split; [reflexivity|].
  destruct (hook_shows_what_GET_returns plain_wire env_dev (Some " u1 ") "u1" db_u1
              Client.initial)
    as (req & row & db' & _ & _ & _ & Hload & Hsame & _).
  - reflexivity.
  - left. vm_compute. eauto.
  - rewrite Hload. cbn [Client.settings]. f_equal.
    by rewrite (Hsame _ eq_refl).
Defined.

(** X12. The hook against the handlers: when [fetch] lets the identity
    through, its [User] row can be provisioned and the callback was built
    by a render that read booleans, [updateSetting k value] sends one PUT
    that the handler answers 200, and the row stored afterwards for the
    identity served carries exactly the flags the hook shows; no error is
    reported. *)
Theorem toggle_is_stored_as_shown (w : Wire.Renderings) (env : Route.Env)
    (userId : option string) (u : string) (db : Db) (k : FlagName) (value : bool)
    (s : Client.HookState) (F : AccessibilitySettings) :
  served_as userId = Some u ->
  can_provision u db ->
  let call := PUT_call userId (map_flags js_bool (set_flag k value F)) in
  let s' := Eff.exec (Client.updateSetting (Wire.respond w env db) userId
                        (map_flags js_bool F) k value) s in
  ∃ req row db',
    Wire.deliver call = Some req ∧
    Route.PUT env req db
      = (Route.json_response (Route.SettingsBody row) 200, db') ∧
    accessibilitySettings db' !! u = Some row ∧
    Client.settings s' = map_flags js_bool (flags row) ∧
    flags row = set_flag k value F ∧
    Client.error s' = None ∧
    Client.sent s' = (Client.sent s ++ [call])%list.
Proof.
  intros Hu Hp. cbv zeta.
  destruct (update_through_server w env userId u db k value s F Hu Hp)
    as (req & row & Hreq & Hput & Hflags & Hstored & _ & Hexec).
  exists req, row. eexists. split; [exact Hreq|]. split; [exact Hput|].
  split; [exact Hstored|]. rewrite Hexec, Hflags. done.
Qed.

Lemma toggle_is_stored_as_shown_witness :
  Client.error
    (Eff.exec (Client.updateSetting (Wire.respond plain_wire env_dev empty_db)
                 None (map_flags js_bool (all_flags false)) HighContrast true)
       Client.initial) = None.
Proof.
  destruct (toggle_is_stored_as_shown plain_wire env_dev None "demo-user-1" empty_db
              HighContrast true Client.initial (all_flags false))
    as (req & row & db' & _ & _ & _ & _ & _ & Herror & _).
  - reflexivity.
  - right. reflexivity.
  - exact Herror.
Defined.

(** X13. Load, toggle, load again: when [fetch] lets the identity through
    and its [User] row can be provisioned, after the hook has loaded the
    settings, the [updateSetting k value] of the render showing them has
    been served, and the settings are loaded anew, the hook shows the flags
    first loaded with [k] replaced by [value], which is what it showed
    right after the toggle; there is no error and nothing is loading. *)
Theorem read_toggle_read (w : Wire.Renderings) (env0 env1 env2 : Route.Env)
    (userId : option string) (u : string) (db0 : Db) (k : FlagName)
    (value : bool) (s0 : Client.HookState) :
  served_as userId = Some u ->
  can_provision u db0 ->
  let s1 := Client.load (Wire.respond w env0 db0) userId s0 in
  let db1 := Wire.store_after env0 (GET_call userId) db0 in
  let s2 :=
    Eff.exec (Client.updateSetting (Wire.respond w env1 db1) userId
                (Client.settings s1) k value) s1 in
  let db2 := Wire.store_after env1 (PUT_call userId (Client.settings s2)) db1 in
  let s3 := Client.load (Wire.respond w env2 db2) userId s2 in
  Client.settings s3 = set_flag k (js_bool value) (Client.settings s1) ∧
  Client.settings s2 = Client.settings s3 ∧
  Client.error s3 = None ∧ Client.isLoading s3 = false ∧
  (∃ row, accessibilitySettings db2 !! u = Some row ∧
          Client.settings s3 = map_flags js_bool (flags row)) ∧
  (accessibilitySettings db0 !! u = None ->
   Client.settings s1 = Client.DEFAULT_SETTINGS).
Proof.
  intros Hu Hp0. cbv zeta.
  destruct (load_from_server w env0 userId u db0 s0 Hu Hp0)
    as (req0 & row0 & _ & _ & _ & _ & Hfresh & Hp1 & Hload1).
  rewrite Hload1. cbn [Client.settings].
  destruct (update_through_server w env1 userId u _ k value
              {| Client.settings := map_flags js_bool (flags row0);
                 Client.isLoading := false; Client.error := None;
                 Client.sent := (Client.sent s0 ++ [GET_call userId])%list |}
              (flags row0) Hu Hp1)
    as (req1 & row1 & _ & _ & Hflags1 & Hstored1 & Hp2 & Hexec).
  cbv zeta in Hexec, Hstored1, Hp2.
  cbn [Client.settings Client.isLoading Client.error Client.sent] in Hexec.
  rewrite Hexec. cbn [Client.settings] in *.
  destruct (load_from_server w env2 userId u _
              {| Client.settings := map_flags js_bool (set_flag k value (flags row0));
                 Client.isLoading := false; Client.error := None;
                 Client.sent := ((Client.sent s0 ++ [GET_call userId]) ++
                   [PUT_call userId (map_flags js_bool (set_flag k value (flags row0)))])%list |}
              Hu Hp2)
    as (req2 & row2 & _ & _ & _ & Hsame & _ & _ & Hload3).
  rewrite Hload3. cbn [Client.settings Client.error Client.isLoading].
  rewrite (Hsame row1 Hstored1), Hflags1.
  split; [apply map_flags_set|]. split; [reflexivity|]. split; [reflexivity|].
  split; [reflexivity|]. split.
  - exists row1. split; [exact Hstored1|]. by rewrite Hflags1.
  - intros Hnone. by rewrite (Hfresh Hnone).
Qed.

Lemma read_toggle_read_witness :
  Client.settings
    (Client.load
       (Wire.respond plain_wire env_later
          (Wire.store_after env_dev
             (PUT_call None
                (Client.settings
                   (Eff.exec
                      (Client.updateSetting
                         (Wire.respond plain_wire env_dev
                            (Wire.store_after env_dev (GET_call None) empty_db))
                         None
                         (Client.settings
                            (Client.load (Wire.respond plain_wire env_dev empty_db)
                               None Client.initial))
                         HighContrast true)
                      (Client.load (Wire.respond plain_wire env_dev empty_db) None
                         Client.initial))))
             (Wire.store_after env_dev (GET_call None) empty_db)))
       None
       (Eff.exec
          (Client.updateSetting
             (Wire.respond plain_wire env_dev
                (Wire.store_after env_dev (GET_call None) empty_db))
             None
             (Client.settings
                (Client.load (Wire.respond plain_wire env_dev empty_db)
                   None Client.initial))
             HighContrast true)
          (Client.load (Wire.respond plain_wire env_dev empty_db) None
             Client.initial)))
  = set_flag HighContrast (js_bool true)
      (Client.settings
         (Client.load (Wire.respond plain_wire env_dev empty_db) None
            Client.initial)).
Proof.
  destruct (read_toggle_read plain_wire env_dev env_dev env_later None
              "demo-user-1" empty_db HighContrast true Client.initial)
    as (Hshown & _).
  - reflexivity.
  - right. reflexivity.
  - exact Hshown.
Defined.

Lemma load_not_ok net userId s response :
  net (GET_call userId) = inr response -> Client.ok response = false ->
  Client.load net userId s =
    {| Client.settings := Client.DEFAULT_SETTINGS;
       Client.isLoading := false;
       Client.error :=
         Some ("Failed to fetch settings: " +:+ pretty (Client.status response)
                 +:+ " " +:+ Client.error_detail response);
       Client.sent := (Client.sent s ++ [GET_call userId])%list |}.
Proof.
  intros Hnet Hok.
  unfold Client.load, Eff.exec, Client.fetchSettings, Eff.finally, Eff.try_catch,
    Eff.bind, Client.fetch. cbn. fold (GET_call userId).
  by rewrite Hnet, Hok.
Qed.

(** X14. When [fetch] lets the identity through and its [User] row cannot
    be provisioned (another user holds the address), the GET is answered
    500 and the hook falls back to the defaults, stops loading and reports
    "Failed to fetch settings: 500" followed by the handler's error text:
    the fixed message in production, the message of the store's error
    otherwise (the status text when that message is empty). The store is
    left as it was. *)
Theorem hook_reports_a_server_error (w : Wire.Renderings) (env : Route.Env)
    (userId : option string) (u : string) (db : Db) (s : Client.HookState) :
  served_as userId = Some u ->
  ¬ can_provision u db ->
  let text :=
    if Route.production env then "Internal server error"
    else Wire.message_of w (UniqueConstraintFailed "User" "email") in
  Client.load (Wire.respond w env db) userId s =
    {| Client.settings := Client.DEFAULT_SETTINGS;
       Client.isLoading := false;
       Client.error :=
         Some ("Failed to fetch settings: 500 "
                 +:+ (if String.eqb text "" then Wire.reason_phrase w 500 else text));
       Client.sent := (Client.sent s ++ [GET_call userId])%list |} ∧
  Wire.store_after env (GET_call userId) db = db.
Proof.
  intros Hu Hn. cbv zeta.
  destruct (respond_GET_call w env userId u db Hu)
    as (req & _ & _ & Hnet & Hstore).
  pose proof (GET_as_blocked env u db (served_as_identity _ _ Hu) Hn) as Hget.
  rewrite Hget in Hnet, Hstore. cbn [fst snd] in Hnet, Hstore.
  split; [|exact Hstore].
  rewrite (load_not_ok (Wire.respond w env db) userId s
             (Wire.to_http w (Route.internal_error env
                                (UniqueConstraintFailed "User" "email")))).
  - f_equal. f_equal. unfold Client.error_detail, Wire.to_http, Route.internal_error.
    cbn [Client.json_result Client.status Client.statusText Route.body Route.status
         Wire.body_json truthy get_prop].
    rewrite lookup_insert_eq. cbn [truthy to_string Wire.error_text].
    destruct (Route.production env); cbn [Wire.error_text];
      [reflexivity|].
    by destruct (String.eqb _ "").
  - exact Hnet.
  - reflexivity.
Qed.

Lemma hook_reports_a_server_error_witness :
  Client.error (Client.load (Wire.respond plain_wire env_later db_clash)
                  (Some "u1") Client.initial)
  = Some "Failed to fetch settings: 500 Internal server error".
Proof.
  destruct (hook_reports_a_server_error plain_wire env_later (Some "u1") "u1"
              db_clash Client.initial) as [Hload _].
  - reflexivity.
  - intros [[u Hu]|Hfree]; vm_compute in *; discriminate.
  - rewrite Hload. reflexivity.
Defined.

(** ** The applier and what it does not manage *)

Ltac in_list :=
  repeat first [ apply list_elem_of_here | apply list_elem_of_further ].

Ltac not_in_list :=
  let H := fresh in
  intros H;
  repeat (apply elem_of_cons in H as [H|H]; [discriminate H|]);
  by apply elem_of_nil in H.

Lemma filter_unmanaged_add t el :
  t ∈ managed_classes ->
  filter (λ c, c ∉ managed_classes) (classList (classList_add t el))
  = filter (λ c, c ∉ managed_classes) (classList el).
Proof.
  intros Ht. unfold classList_add. destruct (classList_contains t el); [reflexivity|].
  cbn [classList]. rewrite filter_app, filter_cons_False by (intros Hn; by apply Hn).
  by rewrite filter_nil, app_nil_r.
Qed.

Lemma filter_unmanaged_remove t el :
  t ∈ managed_classes ->
  filter (λ c, c ∉ managed_classes) (classList (classList_remove t el))
  = filter (λ c, c ∉ managed_classes) (classList el).
Proof.
  intros Ht. cbn [classList_remove classList].
  rewrite list_filter_filter. apply list_filter_iff.
  intros c. split; [tauto|]. intros Hc. split; [exact Hc|]. congruence.
Qed.

Lemma apply_flag_unmanaged_classes k on root :
  filter (λ c, c ∉ managed_classes) (classList (apply_flag k on root))
  = filter (λ c, c ∉ managed_classes) (classList root).
Proof.
  destruct k, on; cbn [apply_flag setAttribute removeAttribute classList];
    try reflexivity;
    first [ rewrite filter_unmanaged_add by (unfold managed_classes; in_list)
          | rewrite filter_unmanaged_remove by (unfold managed_classes; in_list) ];
    reflexivity.
Qed.

Lemma apply_flag_unmanaged_attribute k on root name :
  name ∉ managed_attributes ->
  attributes (apply_flag k on root) !! name = attributes root !! name.
Proof.
  intros Hn.
  assert (name ≠ "data-keyboard-nav" ∧ name ≠ "data-screen-reader"
          ∧ name ≠ "data-voice-nav") as (H1 & H2 & H3).
  { repeat split; intros ->; apply Hn; unfold managed_attributes; in_list. }
  destruct k, on;
    cbn [apply_flag setAttribute removeAttribute classList_remove attributes];
    rewrite ?attributes_add, ?lookup_insert_ne, ?lookup_delete_ne by done;
    reflexivity.
Qed.

(** X15. The applier touches only its own three classes and three
    attributes: the other classes of the element stay, in their order, a
    class that is not one of the three is present after the effect exactly
    when it was before, and every other attribute keeps its value. *)
Theorem applier_leaves_other_markers_alone (settings : AccessibilitySettings)
    (root : Element) :
  filter (λ c, c ∉ managed_classes)
    (classList (useApplyAccessibilitySettings settings root))
  = filter (λ c, c ∉ managed_classes) (classList root) ∧
  (∀ c, c ∉ managed_classes ->
     classList_contains c (useApplyAccessibilitySettings settings root)
     = classList_contains c root) ∧
  (∀ name, name ∉ managed_attributes ->
     attributes (useApplyAccessibilitySettings settings root) !! name
     = attributes root !! name).
Proof.
  assert (Hfilter : filter (λ c, c ∉ managed_classes)
                      (classList (useApplyAccessibilitySettings settings root))
                    = filter (λ c, c ∉ managed_classes) (classList root)).
  { rewrite apply_steps. by rewrite !apply_flag_unmanaged_classes. }
  split; [exact Hfilter|]. split.
  - intros c Hc. unfold classList_contains. apply bool_decide_ext.
    transitivity (c ∈ filter (λ c, c ∉ managed_classes)
                        (classList (useApplyAccessibilitySettings settings root))).
    + rewrite list_elem_of_filter. tauto.
    + rewrite Hfilter, list_elem_of_filter. tauto.
  - intros name Hname. rewrite apply_steps.
    by rewrite !apply_flag_unmanaged_attribute.
Qed.

Lemma applier_leaves_other_markers_alone_witness :
  classList_contains "dark" (useApplyAccessibilitySettings contrast_on root_plain)
  = classList_contains "dark" root_plain ∧
  attributes (useApplyAccessibilitySettings contrast_on root_plain) !! "lang"
  = attributes root_plain !! "lang".
Proof.
  destruct (applier_leaves_other_markers_alone contrast_on root_plain)
    as (_ & Hclass & Hattr).
  split.
  - apply Hclass. unfold managed_classes. not_in_list.
  - apply Hattr. unfold managed_attributes. not_in_list.
Defined.

(** ** Keyboard detection *)

Lemma enable_root st :
  KeyboardDetection.root (KeyboardDetection.enable st)
  = apply_flag KeyboardNav true (KeyboardDetection.root st).
Proof.
  unfold KeyboardDetection.enable. cbn [KeyboardDetection.root apply_flag].
  f_equal. unfold classList_add.
  by destruct (classList_contains "keyboard-nav" (KeyboardDetection.root st)).
Qed.

Lemma disable_root st :
  KeyboardDetection.root (KeyboardDetection.disable false st)
  = apply_flag KeyboardNav false (KeyboardDetection.root st).
Proof. reflexivity. Qed.

Lemma apply_flag_on_on k root :
  apply_flag k true (apply_flag k true root) = apply_flag k true root.
Proof. apply apply_flag_in_sync, in_sync_apply_flag. Qed.

Lemma keyboard_off_after_on root :
  apply_flag KeyboardNav false (apply_flag KeyboardNav true root)
  = apply_flag KeyboardNav false root.
Proof.
  apply element_eq.
  - cbn [apply_flag classList classList_remove removeAttribute setAttribute].
    unfold classList_add. destruct (classList_contains "keyboard-nav" root);
      [reflexivity|].
    cbn [classList]. rewrite filter_app, filter_cons_False by (intros Hx; by apply Hx).
    by rewrite filter_nil, app_nil_r.
  - cbn [apply_flag attributes classList_remove removeAttribute setAttribute].
    by rewrite attributes_add, delete_insert_eq.
Qed.

Lemma apply_flag_off_off k root :
  apply_flag k false (apply_flag k false root) = apply_flag k false root.
Proof. apply apply_flag_in_sync, in_sync_apply_flag. Qed.

Lemma foldl_invariant {A B} (P : A -> Prop) (f : A -> B -> A) (l : list B) (a : A) :
  P a -> (∀ x b, P x -> P (f x b)) -> P (foldl f a l).
Proof.
  intros Ha Hstep. revert a Ha.
  induction l as [|b l IH]; intros a Ha; [exact Ha|].
  cbn [foldl]. apply IH. by apply Hstep.
Qed.

Lemma teardown_root forceEnable el events :
  KeyboardDetection.useKeyboardDetection forceEnable el events
  = apply_flag KeyboardNav forceEnable el.
Proof.
  unfold KeyboardDetection.useKeyboardDetection, KeyboardDetection.after_events.
  destruct forceEnable.
  - cbn [KeyboardDetection.cleanup negb].
    apply (foldl_invariant
             (λ st, KeyboardDetection.root st = apply_flag KeyboardNav true el)).
    + unfold KeyboardDetection.mount. by rewrite enable_root.
    + intros st e Hst. destruct e as [key| |]; cbn [KeyboardDetection.dispatch].
      * unfold KeyboardDetection.onKeyDown.
        destruct (String.eqb key "Tab"); [|exact Hst].
        rewrite enable_root, Hst. apply apply_flag_on_on.
      * unfold KeyboardDetection.onPointer. by rewrite andb_false_r.
      * unfold KeyboardDetection.onPointer. by rewrite andb_false_r.
  - cbn [KeyboardDetection.cleanup negb]. rewrite disable_root.
    apply (foldl_invariant
             (λ st, apply_flag KeyboardNav false (KeyboardDetection.root st)
                    = apply_flag KeyboardNav false el)).
    + reflexivity.
    + intros st e Hst. destruct e as [key| |]; cbn [KeyboardDetection.dispatch].
      * unfold KeyboardDetection.onKeyDown.
        destruct (String.eqb key "Tab"); [|exact Hst].
        by rewrite enable_root, keyboard_off_after_on.
      * unfold KeyboardDetection.onPointer.
        destruct (KeyboardDetection.autoEnabled st); [|exact Hst].
        cbn [andb negb]. by rewrite disable_root, apply_flag_off_off.
      * unfold KeyboardDetection.onPointer.
        destruct (KeyboardDetection.autoEnabled st); [|exact Hst].
        cbn [andb negb]. by rewrite disable_root, apply_flag_off_off.
Qed.

(** X16. Whatever the element looked like and whatever keys and pointer
    events came in, once the keyboard-detection effect is cleaned up the
    element is the one the applier's keyboard step makes for
    [forceEnable]: the class and the attribute are both present when it is
    true, both absent when it is false. *)
Theorem keyboard_detection_teardown (forceEnable : bool) (el : Element)
    (events : list KeyboardDetection.Event) :
  KeyboardDetection.useKeyboardDetection forceEnable el events
  = apply_flag KeyboardNav forceEnable el ∧
  in_sync KeyboardNav forceEnable
    (KeyboardDetection.useKeyboardDetection forceEnable el events).
Proof.
  rewrite teardown_root. split; [reflexivity|]. apply in_sync_apply_flag.
Qed.

Lemma outlined_state el events st b :
  in_sync KeyboardNav false el ->
  KeyboardDetection.autoEnabled st = b ->
  KeyboardDetection.root st = (if b then apply_flag KeyboardNav true el else el) ->
  KeyboardDetection.autoEnabled (foldl (KeyboardDetection.dispatch false) st events)
    = outlined b events ∧
  KeyboardDetection.root (foldl (KeyboardDetection.dispatch false) st events)
    = (if outlined b events then apply_flag KeyboardNav true el else el).
Proof.
  intros Hel. revert st b.
  induction events as [|e events IH]; intros st b Hauto Hroot; [by subst|].
  cbn [foldl outlined]. apply IH.
  - destruct e as [key| |]; cbn [KeyboardDetection.dispatch is_tab is_pointer].
    + unfold KeyboardDetection.onKeyDown. by destruct (String.eqb key "Tab").
    + unfold KeyboardDetection.onPointer. rewrite Hauto. by destruct b.
    + unfold KeyboardDetection.onPointer. rewrite Hauto. by destruct b.
  - destruct e as [key| |]; cbn [KeyboardDetection.dispatch is_tab is_pointer].
    + unfold KeyboardDetection.onKeyDown. destruct (String.eqb key "Tab"); [|exact Hroot].
      rewrite enable_root, Hroot. destruct b; [apply apply_flag_on_on|reflexivity].
    + unfold KeyboardDetection.onPointer. rewrite Hauto. destruct b; [|exact Hroot].
      cbn [andb negb]. rewrite disable_root, Hroot. by apply apply_flag_off_on.
    + unfold KeyboardDetection.onPointer. rewrite Hauto. destruct b; [|exact Hroot].
      cbn [andb negb]. rewrite disable_root, Hroot. by apply apply_flag_off_on.
Qed.

(** X17. Without [forceEnable], on an element that carries neither the
    class nor the attribute, the outlines follow the last input: they are
    on exactly when a Tab press came after the last mouse move or press
    (other keys change nothing), the element then being the applier's
    keyboard step applied to the original, and the original otherwise. *)
Theorem transient_outlines_follow_the_last_input (el : Element)
    (events : list KeyboardDetection.Event) :
  in_sync KeyboardNav false el ->
  let st := KeyboardDetection.after_events false el events in
  KeyboardDetection.root st
    = (if outlined false events then apply_flag KeyboardNav true el else el) ∧
  marker KeyboardNav (KeyboardDetection.root st) = outlined false events ∧
  KeyboardDetection.autoEnabled st = outlined false events.
Proof.
  intros Hel. cbv zeta.
  destruct (outlined_state el events (KeyboardDetection.mount false el) false Hel
              eq_refl eq_refl) as [Hauto Hroot].
  split; [exact Hroot|]. split; [|exact Hauto].
  unfold KeyboardDetection.after_events. rewrite Hroot.
  destruct (outlined false events).
  - apply marker_in_sync, in_sync_apply_flag.
  - by apply marker_in_sync.
Qed.

Lemma transient_outlines_follow_the_last_input_witness :
  KeyboardDetection.root
    (KeyboardDetection.after_events false root_plain
       [KeyboardDetection.KeyDown "Tab"; KeyboardDetection.KeyDown "a";
        KeyboardDetection.MouseMove])
  = root_plain ∧
  marker KeyboardNav
    (KeyboardDetection.root
       (KeyboardDetection.after_events false root_plain
          [KeyboardDetection.MouseDown; KeyboardDetection.KeyDown "Tab"]))
  = true.
Proof.
  split.
  - apply (transient_outlines_follow_the_last_input root_plain
             [KeyboardDetection.KeyDown "Tab"; KeyboardDetection.KeyDown "a";
              KeyboardDetection.MouseMove]).
    split; reflexivity.
  - apply (transient_outlines_follow_the_last_input root_plain
             [KeyboardDetection.MouseDown; KeyboardDetection.KeyDown "Tab"]).
    split; reflexivity.
Defined.

(** X18. The keyboard detection run on the element the applier left, as
    the dashboard layout does with [settings.keyboardNav]: when the flag is
    on, no event changes the element; when it is off, the element differs
    from the applier's at most by the transient outline. Running the
    applier again gives the applier's element back, and so does the
    clean-up of the detection. *)
Theorem keyboard_detection_beside_the_applier (settings : AccessibilitySettings)
    (root : Element) (events : list KeyboardDetection.Event) :
  let root0 := useApplyAccessibilitySettings settings root in
  let st := KeyboardDetection.after_events (keyboardNav settings) root0 events in
  KeyboardDetection.root st
    = (if keyboardNav settings then root0
       else if outlined false events then apply_flag KeyboardNav true root0
       else root0) ∧
  useApplyAccessibilitySettings settings (KeyboardDetection.root st) = root0 ∧
  KeyboardDetection.useKeyboardDetection (keyboardNav settings) root0 events = root0.
Proof.
  cbv zeta. set (root0 := useApplyAccessibilitySettings settings root).
  assert (Hsync : ∀ k, in_sync k (get_flag k settings) root0).
  { intros k. apply in_sync_after_apply. }
  pose proof (Hsync KeyboardNav) as Hkn. cbn [get_flag] in Hkn.
  assert (Hforced : keyboardNav settings = true ->
            KeyboardDetection.root
              (KeyboardDetection.after_events (keyboardNav settings) root0 events)
            = root0).
  { intros Hon. rewrite Hon in *.
    unfold KeyboardDetection.after_events.
    apply (foldl_invariant (λ st, KeyboardDetection.root st = root0)).
    - unfold KeyboardDetection.mount. rewrite enable_root.
      by apply apply_flag_in_sync.
    - intros st e Hst. destruct e as [key| |]; cbn [KeyboardDetection.dispatch].
      + unfold KeyboardDetection.onKeyDown.
        destruct (String.eqb key "Tab"); [|exact Hst].
        rewrite enable_root, Hst. by apply apply_flag_in_sync.
      + unfold KeyboardDetection.onPointer. by rewrite andb_false_r.
      + unfold KeyboardDetection.onPointer. by rewrite andb_false_r. }
  assert (Hloose : keyboardNav settings = false ->
            KeyboardDetection.root
              (KeyboardDetection.after_events (keyboardNav settings) root0 events)
            = (if outlined false events then apply_flag KeyboardNav true root0
               else root0)).
  { intros Hoff. rewrite Hoff in *.
    by apply (outlined_state root0 events (KeyboardDetection.mount false root0) false). }
  split; [|split].
  - destruct (keyboardNav settings) eqn:Hflag;
      [exact (Hforced eq_refl)|exact (Hloose eq_refl)].
  - destruct (keyboardNav settings) eqn:Hflag.
    + rewrite (Hforced eq_refl). by apply apply_when_in_sync.
    + rewrite (Hloose eq_refl). destruct (outlined false events).
      * rewrite <- (set_flag_restore KeyboardNav true settings) at 1.
        cbn [get_flag]. rewrite Hflag.
        rewrite (apply_one_change (set_flag KeyboardNav true settings) _
                   KeyboardNav false).
        -- by apply apply_flag_off_on.
        -- intros k'. destruct (decide (KeyboardNav = k')) as [<-|Hne].
           ++ rewrite set_flag_same. apply in_sync_apply_flag.
           ++ rewrite set_flag_other by done.
              apply in_sync_apply_other; [congruence|apply Hsync].
      * by apply apply_when_in_sync.
  - rewrite teardown_root. by apply apply_flag_in_sync.
Qed.

(** ** The voice matcher *)

Section VoiceMatcher.
Context {char : Type} `{EqDecision char}.
Variables (is_word is_space : char -> bool).
Variable toLowerCase : list char -> list char.

Lemma startsWith_prefix (txt phrase : list char) :
  Voice.startsWith txt phrase = true <-> ∃ post, txt = (phrase ++ post)%list.
Proof.
  revert txt. induction phrase as [|p phrase IH]; intros txt; cbn [Voice.startsWith].
  - split; [intros _; by exists txt|done].
  - destruct txt as [|t txt].
    + split; [done|]. intros [post Hpost]. by simpl in Hpost.
    + rewrite andb_true_iff, bool_decide_eq_true, IH. split.
      * intros [-> [post ->]]. by exists post.
      * intros [post Hpost]. injection Hpost as -> ->. split; [done|by exists post].
Qed.

Lemma includes_infix (txt phrase : list char) :
  Voice.includes txt phrase = true
  <-> ∃ pre post, txt = (pre ++ phrase ++ post)%list.
Proof.
  induction txt as [|t txt IH]; cbn [Voice.includes].
  - rewrite orb_false_r, startsWith_prefix. split.
    + intros [post Hpost]. by exists [], post.
    + intros (pre & post & Hpost). symmetry in Hpost.
      apply app_eq_nil in Hpost as [-> Hpost]. by exists post.
  - rewrite orb_true_iff, startsWith_prefix, IH. split.
    + intros [[post Hpost]|(pre & post & ->)].
      * by exists [], post.
      * by exists (t :: pre), post.
    + intros (pre & post & Hpost). destruct pre as [|c pre].
      * left. by exists post.
      * right. injection Hpost as -> ->. by exists pre, post.
Qed.

Lemma startsWith_includes (txt phrase : list char) :
  Voice.startsWith txt phrase = true -> Voice.includes txt phrase = true.
Proof.
  rewrite startsWith_prefix, includes_infix. intros [post ->]. by exists [], post.
Qed.

Lemma second_search_finds_nothing (phrase : list char)
    (interactive : list (list char)) :
  list_find (λ txt, Is_true (Voice.includes (toLowerCase txt) phrase)) interactive
    = None ->
  list_find (λ txt, Is_true (Voice.startsWith (toLowerCase txt) phrase)) interactive
    = None.
Proof.
  rewrite !list_find_None. intros Hnone. eapply Forall_impl; [exact Hnone|].
  intros txt Hno Hyes. apply Hno.
  apply Is_true_true. by apply startsWith_includes, Is_true_true.
Qed.

Lemma onresult_first_search (results : list (list (list char)))
    (interactive : list (list char)) :
  Voice.onresult is_word is_space toLowerCase results interactive
  = raw ← Voice.last_transcript results;
    fst <$> list_find
              (λ txt, Is_true (Voice.includes (toLowerCase txt)
                                 (Voice.normalized is_word is_space toLowerCase raw)))
              interactive.
Proof.
  unfold Voice.onresult. destruct (Voice.last_transcript results) as [raw|]; [|done].
  cbn [mbind option_bind]. cbv zeta.
  destruct (list_find _ interactive) as [found|] eqn:Hfind; [done|].
  destruct (Voice.normalized _ _ _ raw); [done|].
  by rewrite (second_search_finds_nothing _ _ Hfind).
Qed.

(** X19. The second search of the voice matcher never finds anything: a
    text that starts with the phrase also includes it, so [onresult] clicks
    what the first search, for a text that includes the phrase, finds, and
    nothing when that search finds nothing or the event carries no
    transcript. *)
Theorem voice_fallback_search_is_dead (results : list (list (list char)))
    (interactive : list (list char)) :
  (∀ txt phrase : list char,
     implb (Voice.startsWith txt phrase) (Voice.includes txt phrase) = true) ∧
  Voice.onresult is_word is_space toLowerCase results interactive
  = raw ← Voice.last_transcript results;
    fst <$> list_find
              (λ txt, Is_true (Voice.includes (toLowerCase txt)
                                 (Voice.normalized is_word is_space toLowerCase raw)))
              interactive.
Proof.
  split; [|apply onresult_first_search].
  intros txt phrase. destruct (Voice.startsWith txt phrase) eqn:Hstarts; [|done].
  by apply startsWith_includes.
Qed.

(** X20. The voice matcher clicks element [i] exactly when the event
    carries a transcript, the lower-cased text of element [i] contains the
    normalized phrase (trimmed, lower-cased, punctuation removed) as a
    contiguous part, and no earlier element's text does: the first match in
    document order, not the best one. *)
Theorem voice_clicks_first_element_naming_the_phrase
    (results : list (list (list char))) (interactive : list (list char))
    (i : nat) :
  let names (phrase txt : list char) :=
    ∃ pre post, toLowerCase txt = (pre ++ phrase ++ post)%list in
  Voice.onresult is_word is_space toLowerCase results interactive = Some i
  <-> ∃ raw txt,
        Voice.last_transcript results = Some raw ∧
        interactive !! i = Some txt ∧
        names (Voice.normalized is_word is_space toLowerCase raw) txt ∧
        ∀ j other, interactive !! j = Some other -> (j < i)%nat ->
          ¬ names (Voice.normalized is_word is_space toLowerCase raw) other.
Proof.
  cbv zeta. rewrite onresult_first_search.
  destruct (Voice.last_transcript results) as [raw|]; cbn [mbind option_bind].
  - rewrite fmap_Some. split.
    + intros ([j txt] & Hfind & ->). apply list_find_Some in Hfind as (Htxt & Hyes & Hfirst).
      exists raw, txt. split; [done|]. split; [done|]. split.
      * by apply includes_infix, Is_true_true.
      * intros j' other Hother Hlt Hnames.
        apply (Hfirst j' other Hother Hlt). by apply Is_true_true, includes_infix.
    + intros (raw' & txt & [= <-] & Htxt & Hyes & Hfirst).
      exists (i, txt). split; [|done]. apply list_find_Some.
      split; [done|]. split.
      * by apply Is_true_true, includes_infix.
      * intros j other Hother Hlt Hyes'.
        apply (Hfirst j other Hother Hlt). by apply includes_infix, Is_true_true.
  - split; [done|]. by intros (raw & txt & Hraw & _).
Qed.

(** X21. A transcript that normalizes to the empty phrase (only spaces
    to trim and punctuation, say) makes the voice matcher click the first
    interactive element of the page, whatever its text. *)
Theorem voice_blank_phrase_clicks_first_element
    (results : list (list (list char))) (raw first : list char)
    (rest : list (list char)) :
  Voice.last_transcript results = Some raw ->
  Voice.normalized is_word is_space toLowerCase raw = [] ->
  Voice.onresult is_word is_space toLowerCase results (first :: rest) = Some 0%nat.
Proof.
  intros Hraw Hblank. unfold Voice.onresult. rewrite Hraw. cbv zeta.
  rewrite Hblank. cbn [list_find]. rewrite decide_True; [done|].
  apply Is_true_true, includes_infix. by exists [], (toLowerCase first).
Qed.

End VoiceMatcher.

Lemma voice_clicks_first_element_naming_the_phrase_witness :
  ∃ raw txt,
    Voice.last_transcript (heard " Jobs. ") = Some raw ∧
    page_controls !! 1%nat = Some txt ∧
    (∃ pre post,
       ascii_lower txt
       = (pre ++ Voice.normalized ascii_word ascii_space ascii_lower raw ++ post)%list) ∧
    ∀ j other, page_controls !! j = Some other -> (j < 1)%nat ->
      ¬ ∃ pre post,
          ascii_lower other
          = (pre ++ Voice.normalized ascii_word ascii_space ascii_lower raw ++ post)%list.
Proof.
  apply (voice_clicks_first_element_naming_the_phrase ascii_word ascii_space
           ascii_lower (heard " Jobs. ") page_controls 1).
  reflexivity.
Defined.

Lemma voice_blank_phrase_clicks_first_element_witness :
  Voice.onresult ascii_word ascii_space ascii_lower (heard " ?! ") page_controls
  = Some 0%nat.
Proof.
  apply (voice_blank_phrase_clicks_first_element ascii_word ascii_space ascii_lower
           (heard " ?! ") (units " ?! ")); reflexivity.
Defined.

(** ** Updating several flags *)

Lemma spread_get (base : Flags jsval) (partial : Flags (option jsval)) (k : FlagName) :
  get_flag k (Client.spread base partial)
  = default (get_flag k base) (get_flag k partial).
Proof. by destruct k. Qed.

Lemma set_flag_get {A} (k k' : FlagName) (v : A) (s : Flags A) :
  get_flag k' (set_flag k v s)
  = if bool_decide (k' = k) then v else get_flag k' s.
Proof.
  destruct (decide (k' = k)) as [->|Hne].
  - rewrite bool_decide_eq_true_2 by done. apply set_flag_same.
  - rewrite bool_decide_eq_false_2 by done. by apply set_flag_other.
Qed.

(** X22. [updateSetting k value] does what the [updateSettings] of the
    same render does for the partial object naming only [k]. After
    [updateSettings] each flag shown is the one the partial object names,
    or else the one the render read; with the empty object the flags shown
    are those of the render. Neither merges into what the state holds
    when it is called: of two calls of [updateSetting] made from one render
    the second starts from the render's flags again, so afterwards only its
    own flag differs from them, the change of the first is lost from the
    flags shown, and two PUTs went out, the last carrying the flags
    shown. *)
Theorem updateSetting_is_a_one_key_updateSettings (net : Client.Network)
    (userId : option string) (rendered : Flags jsval) (k k2 : FlagName)
    (value value2 : bool) (partial : Flags (option jsval))
    (s : Client.HookState) :
  let s1 := Eff.exec (Client.updateSetting net userId rendered k value) s in
  let s2 := Eff.exec (Client.updateSetting net userId rendered k2 value2) s1 in
  s1 = Eff.exec (Client.updateSettings net userId rendered
                   (set_flag k (Some (js_bool value)) (all_flags None))) s ∧
  (∀ k', get_flag k' (Client.settings
                        (Eff.exec (Client.updateSettings net userId rendered partial) s))
         = default (get_flag k' rendered) (get_flag k' partial)) ∧
  Client.settings
    (Eff.exec (Client.updateSettings net userId rendered (all_flags None)) s)
  = rendered ∧
  Client.settings s2 = set_flag k2 (js_bool value2) rendered ∧
  (∀ k', get_flag k' (Client.settings s2)
         = if bool_decide (k' = k2) then js_bool value2 else get_flag k' rendered) ∧
  Client.sent s2
  = (Client.sent s ++ [PUT_call userId (set_flag k (js_bool value) rendered);
                       PUT_call userId (set_flag k2 (js_bool value2) rendered)])%list.
Proof.
  cbv zeta.
  assert (Hrun : ∀ p, Eff.exec (Client.updateSettings net userId rendered p) s =
                 Eff.exec (Client.persistSettings net
                             (Client.spread rendered p) userId)
                   (Eff.exec (Client.setSettings (Client.spread rendered p)) s)).
  { reflexivity. }
  split; [|split; [|split; [|split; [|split]]]].
  - rewrite Hrun, updateSetting_run.
    assert (Hmerged : Client.spread rendered
                        (set_flag k (Some (js_bool value)) (all_flags None))
                      = set_flag k (Some (JBool value)) rendered).
    { by destruct k, rendered. }
    by rewrite Hmerged.
  - intros k'. rewrite Hrun, persistSettings_run. cbn [Client.settings].
    apply spread_get.
  - rewrite Hrun, persistSettings_run. cbn [Client.settings].
    by destruct rendered.
  - by rewrite !updateSetting_run, !persistSettings_run.
  - intros k'. rewrite !updateSetting_run, !persistSettings_run.
    cbn [Client.settings Eff.exec Client.setSettings Eff.modify fst].
    apply set_flag_get.
  - rewrite !updateSetting_run, !persistSettings_run.
    cbn [Client.sent Eff.exec Client.setSettings Eff.modify fst].
    by rewrite <- app_assoc.
Qed.
